(** * Ant-farm simulation (Task2_SE/main.cpp): shallow embedding and properties

    The C++ program keeps every ant behind a [shared_ptr<Ant>]; a colony's
    [ants] vector and its [queen] field hold handles to the same objects, and
    nothing stops one handle from being stored several times.  The embedding
    therefore keeps the ants in an explicit store and lets colonies hold
    handles into it.

    [int] values are modelled as [Z].  Signed overflow is undefined in C++;
    section [IntRange] at the end shows that the arithmetic done by [act] and
    [consumeFood] stays inside the 32-bit range for every value the
    constructors and the tick can produce. *)

From Stdlib Require Import ZArith Lia.
From stdpp Require Import base option list strings pretty.

Local Open Scope Z_scope.

(** ** Handles and the ant store *)

(** A [shared_ptr]: [None] is [nullptr], [Some i] designates cell [i] of the
    store. *)
Abbreviation ptr := (option nat).

Definition is_null (p : ptr) : bool :=
  match p with
  | None => true
  | Some _ => false
  end.

(** ** Enumerations and the [Species] value class *)

Inductive AntType : Set := DRONE | WARRIOR | QUEEN.

Record Species : Set := mkSpecies {
  speciesName : string;
  strengthBonus : Z;
  efficiencyBonus : Z;
  harvestBonus : Z
}.

(** ** class Ant and its three subclasses *)

Module Ant.

Record t : Set := mk {
  name : string;
  species : Species;
  type : AntType;
  energy : Z;
  foodConsumption : Z
}.

(** [Ant::Ant(name, species, type)]. *)
Definition new (n : string) (sp : Species) (ty : AntType) : t :=
  mk n sp ty 100 10.

(** The subclass constructors only fix the tag. *)
Definition DroneAnt (n : string) (sp : Species) : t := new n sp DRONE.
Definition WarriorAnt (n : string) (sp : Species) : t := new n sp WARRIOR.
Definition QueenAnt (n : string) (sp : Species) : t := new n sp QUEEN.

Definition set_energy (e : Z) (a : t) : t :=
  mk (name a) (species a) (type a) e (foodConsumption a).

Definition rest (a : t) : t := set_energy (Z.min 100 (energy a + 20)) a.

Definition work (a : t) : t := set_energy (Z.max 0 (energy a - 10)) a.

(** [consumeFood(int &foodSupply)]: the result is the returned flag and the
    value left in the referenced variable. *)
Definition consumeFood (a : t) (foodSupply : Z) : bool * Z :=
  if foodSupply >=? foodConsumption a
  then (true, foodSupply - foodConsumption a)
  else (false, foodSupply).

Definition needsRest (a : t) : bool := energy a <? 30.

Definition getType (a : t) : AntType := type a.

(** The three overrides of the pure virtual [act]. *)
Definition DroneAnt_act (a : t) : t :=
  if needsRest a then rest a else work a.

Definition WarriorAnt_act (a : t) : t :=
  if needsRest a then rest a else work a.

Definition QueenAnt_act (a : t) : t :=
  if negb (needsRest a) then work a else a.

(** Virtual dispatch.  [Ant] is abstract and each concrete subclass passes
    its own tag to the base constructor, so the tag determines the dynamic
    class. *)
Definition act (a : t) : t :=
  match type a with
  | DRONE => DroneAnt_act a
  | WARRIOR => WarriorAnt_act a
  | QUEEN => QueenAnt_act a
  end.

(** [n] successive calls of [act] on the same object. *)
Fixpoint act_n (n : nat) (a : t) : t :=
  match n with
  | O => a
  | S k => act_n k (act a)
  end.

End Ant.

(** The store of ant objects and [make_shared]. *)
Abbreviation Heap := (list Ant.t).

Definition deref (h : Heap) (p : ptr) : option Ant.t :=
  match p with
  | None => None
  | Some i => h !! i
  end.

Definition store (h : Heap) (p : ptr) (a : Ant.t) : Heap :=
  match p with
  | None => h
  | Some i => <[i := a]> h
  end.

Definition make_shared (a : Ant.t) (h : Heap) : Heap * ptr :=
  (h ++ [a], Some (length h)).

(** ** Calls made on colony members

    A tick is observed through the member calls it makes, in order: at which
    position of [ants] (and on which handle) [act] was called, and at which
    position [consumeFood] was called and what it returned. *)
Inductive Event : Set :=
| EvAct (i : nat) (p : ptr)
| EvConsumeFood (i : nat) (p : ptr) (ok : bool).

(** ** class AntFarm

    [rooms] holds handles to [Room] objects.  No member function of
    [AntFarm], [Ant] or [Meadow] ever reads a room, so the rooms themselves
    are not part of the state modelled here. *)

Module AntFarm.

Record t : Set := mk {
  name : string;
  species : Species;
  queen : ptr;
  ants : list ptr;
  rooms : list ptr;
  foodSupply : Z;
  isActive : bool
}.

(** [AntFarm::AntFarm(name, species)]: [queen] is a null handle and both
    vectors are empty. *)
Definition new (n : string) (sp : Species) : t :=
  mk n sp None [] [] 1000 true.

Definition set_foodSupply (v : Z) (f : t) : t :=
  mk (name f) (species f) (queen f) (ants f) (rooms f) v (isActive f).

Definition set_isActive (b : bool) (f : t) : t :=
  mk (name f) (species f) (queen f) (ants f) (rooms f) (foodSupply f) b.

Definition addRoom (room : ptr) (f : t) : t :=
  mk (name f) (species f) (queen f) (ants f) (rooms f ++ [room])
     (foodSupply f) (isActive f).

Definition setQueen (q : ptr) (f : t) : t :=
  mk (name f) (species f) q (ants f ++ [q]) (rooms f)
     (foodSupply f) (isActive f).

Definition addAnt (ant : ptr) (f : t) : t :=
  mk (name f) (species f) (queen f) (ants f ++ [ant]) (rooms f)
     (foodSupply f) (isActive f).

(** The range-for of [tick] over the handles still to visit; [i] is the
    position of the first of them in [ants].  Dereferencing a null handle
    is undefined behaviour: the model gives no result. *)
Fixpoint tick_loop (i : nat) (l : list ptr) (h : Heap) (f : t)
  : option (Heap * t * list Event) :=
  match l with
  | [] => Some (h, f, [])
  | p :: l' =>
      match deref h p with
      | None => None
      | Some a =>
          let a' := Ant.act a in
          let h' := store h p a' in
          let '(ok, food) := Ant.consumeFood a' (foodSupply f) in
          let f' := set_foodSupply food f in
          if negb ok
          then Some (h', set_isActive false f',
                     [EvAct i p; EvConsumeFood i p false])
          else
            match tick_loop (S i) l' h' f' with
            | None => None
            | Some (h'', f'', tr) =>
                Some (h'', f'', EvAct i p :: EvConsumeFood i p true :: tr)
            end
      end
  end.

Definition tick (h : Heap) (f : t) : option (Heap * t * list Event) :=
  if negb (isActive f) || is_null (queen f)
  then Some (h, f, [])
  else tick_loop 0 (ants f) h f.

Definition isActiveColony (f : t) : bool :=
  isActive f && negb (is_null (queen f)).

(** [n] successive calls of [tick] on the same colony. *)
Fixpoint tick_n (n : nat) (h : Heap) (f : t)
  : option (Heap * t * list Event) :=
  match n with
  | O => Some (h, f, [])
  | S k =>
      match tick h f with
      | None => None
      | Some (h', f', tr) =>
          match tick_n k h' f' with
          | None => None
          | Some (h'', f'', tr') => Some (h'', f'', tr ++ tr')
          end
      end
  end.

End AntFarm.

(** ** class Meadow

    [createAntFarm] is the only place that stores a colony and it allocates a
    fresh one each time, so no two entries of [farms] designate the same
    colony and the vector is kept as a list of colony states. *)

Module Meadow.

Record t : Set := mk {
  species : list Species;
  farms : list AntFarm.t
}.

Definition createAntFarm (n : string) (sp : Species) (m : t) : t * nat :=
  (mk (species m) (farms m ++ [AntFarm.new n sp]), length (farms m)).

(** [std::count_if]. *)
Fixpoint count_if {A : Type} (pred : A -> bool) (l : list A) : Z :=
  match l with
  | [] => 0
  | x :: l' => (if pred x then 1 else 0) + count_if pred l'
  end.

(** The count is stored in an [int]; it is exact for any vector of fewer than
    [2 ^ 31] colonies. *)
Definition simulationComplete (m : t) : bool :=
  let activeColonies := count_if AntFarm.isActiveColony (farms m) in
  activeColonies <=? 1.

Fixpoint tick_farms (l : list AntFarm.t) (h : Heap)
  : option (Heap * list AntFarm.t) :=
  match l with
  | [] => Some (h, [])
  | f :: l' =>
      match AntFarm.tick h f with
      | None => None
      | Some (h', f', _) =>
          match tick_farms l' h' with
          | None => None
          | Some (h'', fs) => Some (h'', f' :: fs)
          end
      end
  end.

Definition tick (h : Heap) (m : t) : option (Heap * t) :=
  match tick_farms (farms m) h with
  | None => None
  | Some (h', fs) => Some (h', mk (species m) fs)
  end.

Definition getSpecies (m : t) : list Species := species m.

(** [int numSpecies = (38 % 6) + 10]. *)
Definition numSpecies : Z := Z.rem 38 6 + 10.

(** C++ does not fix the order in which the three [rand()] arguments of one
    [emplace_back] are evaluated; a compiler may take any of the six orders
    (g++ goes right to left).  An [ArgOrder] names the order as the initials
    of strength, efficiency and harvest, first evaluated first. *)
Inductive ArgOrder : Set := SEH | SHE | ESH | EHS | HSE | HES.

(** Which of the three calls (0, 1 or 2) gives each argument its value. *)
Definition strength_call (o : ArgOrder) : nat :=
  match o with
  | SEH | SHE => 0
  | ESH | HSE => 1
  | EHS | HES => 2
  end.

Definition efficiency_call (o : ArgOrder) : nat :=
  match o with
  | ESH | EHS => 0
  | SEH | HES => 1
  | SHE | HSE => 2
  end.

Definition harvest_call (o : ArgOrder) : nat :=
  match o with
  | HSE | HES => 0
  | SHE | EHS => 1
  | SEH | ESH => 2
  end.

(** The loop of [initializeSpecies]: [n] iterations are left, [i] is the loop
    variable and [k] the number of calls of [rand] made so far; the [k]-th
    call of [rand] in the run returns [rnd k], and [ord i] is the order in
    which iteration [i] evaluates its three calls. *)
Fixpoint initializeSpecies_from (n i k : nat) (ord : nat -> ArgOrder)
    (rnd : nat -> Z) : list Species :=
  match n with
  | O => []
  | S n' =>
      mkSpecies ("Species" +:+ pretty i)
        (Z.rem (rnd (k + strength_call (ord i))%nat) 5 + 5)
        (Z.rem (rnd (k + efficiency_call (ord i))%nat) 5 + 5)
        (Z.rem (rnd (k + harvest_call (ord i))%nat) 5 + 5)
      :: initializeSpecies_from n' (S i) (k + 3)%nat ord rnd
  end.

Definition initializeSpecies (ord : nat -> ArgOrder) (rnd : nat -> Z)
  : list Species :=
  initializeSpecies_from (Z.to_nat numSpecies) 0 0 ord rnd.

(** [Meadow::Meadow()], run by the first [getInstance()]. *)
Definition new (ord : nat -> ArgOrder) (rnd : nat -> Z) : t :=
  mk (initializeSpecies ord rnd) [].

(** A member call made through the handle [createAntFarm] returned. *)
Definition with_farm (i : nat) (g : AntFarm.t -> AntFarm.t) (m : t) : t :=
  mk (species m) (alter g i (farms m)).

End Meadow.

(** ** class Room *)

Module Room.

Inductive RoomType : Set := SPAWNING | RESTING | STORAGE | BATTLE.

Record t : Set := mk {
  name : string;
  type : RoomType;
  capacity : Z;
  ants : list ptr
}.

(** [Room::Room(name, type, capacity)]. *)
Definition new (n : string) (ty : RoomType) (c : Z) : t := mk n ty c [].

(** [ants.size() < capacity] compares a [size_t] with an [int]: the usual
    arithmetic conversions turn [capacity] into a [size_t], that is, reduce
    it modulo [2 ^ w] where [w] is the width of [size_t]. *)
Definition canAcceptMoreAnts (w : Z) (r : t) : bool :=
  Z.of_nat (length (ants r)) <? capacity r mod 2 ^ w.

Definition addAnt (w : Z) (ant : ptr) (r : t) : t :=
  if canAcceptMoreAnts w r
  then mk (name r) (type r) (capacity r) (ants r ++ [ant])
  else r.

Definition getType (r : t) : RoomType := type r.

Definition getAnts (r : t) : list ptr := ants r.

(** [addAnt] called with each handle of [ps], in order. *)
Fixpoint addAnt_all (w : Z) (ps : list ptr) (r : t) : t :=
  match ps with
  | [] => r
  | p :: ps' => addAnt_all w ps' (addAnt w p r)
  end.

End Room.

(** ** The driver [main] *)

Definition MAX_TICKS : Z := 1000.

(** The [while] loop of [main]; [out] collects the lines written to [cout].
    [fuel] bounds the number of iterations the model unrolls. *)
Fixpoint main_loop (fuel : nat) (tickCount : Z) (h : Heap) (m : Meadow.t)
    (out : list string) : option (Z * Heap * Meadow.t * list string) :=
  if negb (Meadow.simulationComplete m) && (tickCount <? MAX_TICKS)
  then
    match fuel with
    | O => None
    | S fuel' =>
        match Meadow.tick h m with
        | None => None
        | Some (h', m') =>
            let tickCount' := tickCount + 1 in
            main_loop fuel' tickCount' h' m'
              (out ++ ["Tick " +:+ pretty tickCount' +:+ " completed."])
        end
    end
  else Some (tickCount, h, m, out).

(** [main]: the exit status and the lines written.  Indexing [speciesList]
    out of range is undefined behaviour: the model gives no result. *)
Definition main (ord : nat -> Meadow.ArgOrder) (rnd : nat -> Z)
  : option (Z * list string) :=
  let meadow := Meadow.new ord rnd in
  let speciesList := Meadow.getSpecies meadow in
  match speciesList !! 0%nat, speciesList !! 1%nat with
  | Some s0, Some s1 =>
      let '(meadow, farm1) := Meadow.createAntFarm "Colony1" s0 meadow in
      let '(meadow, farm2) := Meadow.createAntFarm "Colony2" s1 meadow in
      let '(h, queen1) := make_shared (Ant.QueenAnt "Queen1" s0) [] in
      let '(h, queen2) := make_shared (Ant.QueenAnt "Queen2" s1) h in
      let meadow := Meadow.with_farm farm1 (AntFarm.setQueen queen1) meadow in
      let meadow := Meadow.with_farm farm2 (AntFarm.setQueen queen2) meadow in
      let '(h, drone1) := make_shared (Ant.DroneAnt "Drone1" s0) h in
      let meadow := Meadow.with_farm farm1 (AntFarm.addAnt drone1) meadow in
      let '(h, warrior1) := make_shared (Ant.WarriorAnt "Warrior1" s1) h in
      let meadow := Meadow.with_farm farm2 (AntFarm.addAnt warrior1) meadow in
      match main_loop (Z.to_nat MAX_TICKS) 0 h meadow [] with
      | None => None
      | Some (tickCount, _, _, out) =>
          Some (0, out ++ ["Simulation ended after " +:+ pretty tickCount
                             +:+ " ticks."])
      end
  | _, _ => None
  end.

(** ** Reference behaviour and predicates used by the statements *)

(** The energy rule as the specification words it: a non-leader rests below
    the threshold 30 and works otherwise; a leader works at or above the
    threshold and is left alone below it. *)
Definition spec_step (kind : AntType) (e : Z) : Z :=
  match kind with
  | QUEEN => if 30 <=? e then Z.max 0 (e - 10) else e
  | DRONE | WARRIOR => if e <? 30 then Z.min 100 (e + 20) else Z.max 0 (e - 10)
  end.

(** Every handle of [l] designates an object of the store. *)
Definition valid_handles (h : Heap) (l : list ptr) : Prop :=
  Forall (fun p => is_Some (deref h p)) l.

(** No stored ant has a negative [foodConsumption]; the constructor sets it
    to 10 and no member function assigns it. *)
Definition rates_nonneg (h : Heap) : Prop :=
  Forall (fun a => 0 <= Ant.foodConsumption a) h.

(** [act] called once for each handle of [l], in order. *)
Fixpoint act_all (l : list ptr) (h : Heap) : Heap :=
  match l with
  | [] => h
  | p :: l' =>
      match deref h p with
      | None => act_all l' h
      | Some a => act_all l' (store h p (Ant.act a))
      end
  end.

(** The calls a run of the loop makes on the handles of [l], the first of
    which is at position [i], when every withdrawal succeeds. *)
Fixpoint ok_calls (i : nat) (l : list ptr) : list Event :=
  match l with
  | [] => []
  | p :: l' => EvAct i p :: EvConsumeFood i p true :: ok_calls (S i) l'
  end.

(** The position in [ants] a call was made at. *)
Definition ev_pos (ev : Event) : nat :=
  match ev with
  | EvAct i _ => i
  | EvConsumeFood i _ _ => i
  end.

(** The [foodConsumption] found behind a handle (0 behind a null one), the
    consumption of the members of [l] counted once per position, and the
    consumptions of all stored ants. *)
Definition rate_at (h : Heap) (p : ptr) : Z :=
  from_option Ant.foodConsumption 0 (deref h p).

Definition total_rate (h : Heap) (l : list ptr) : Z :=
  foldr (fun p acc => rate_at h p + acc) 0 l.

Definition rates (h : Heap) : list Z := Ant.foodConsumption <$> h.

(** What a tick leaves in the colony and the calls it made, without the
    store. *)
Definition outcome (r : Heap * AntFarm.t * list Event) : AntFarm.t * list Event :=
  (snd (fst r), snd r).

(** How many positions of [l] hold the handle [p]. *)
Fixpoint occurrences (p : ptr) (l : list ptr) : nat :=
  match l with
  | [] => 0
  | q :: l' => (if decide (q = p) then 1 else 0) + occurrences p l'
  end.

(** The 32-bit range of [int]. *)
Definition int_min : Z := - 2 ^ 31.
Definition int_max : Z := 2 ^ 31 - 1.
Definition in_int (z : Z) : Prop := int_min <= z <= int_max.

(** ** Concrete states used as examples

    The objects [main] builds for its first colony, with a second worker: a
    queen, a drone and a warrior of one species, allocated in that order. *)
Definition ex_species : Species := mkSpecies "Species0" 5 6 7.

Definition ex_heap : Heap :=
  [Ant.QueenAnt "Queen1" ex_species;
   Ant.DroneAnt "Drone1" ex_species;
   Ant.WarriorAnt "Warrior1" ex_species].

(** [Colony1] right after [setQueen(queen1)]. *)
Definition ex_farm : AntFarm.t :=
  AntFarm.setQueen (Some 0%nat) (AntFarm.new "Colony1" ex_species).

(** The same colony once the queen alone has eaten for 98 ticks (20 units
    of food are left) and the drone and the warrior have then been added. *)
Definition short_heap : Heap :=
  [Ant.mk "Queen1" ex_species QUEEN 20 10;
   Ant.DroneAnt "Drone1" ex_species;
   Ant.WarriorAnt "Warrior1" ex_species].

Definition short_farm : AntFarm.t :=
  AntFarm.mk "Colony1" ex_species (Some 0%nat)
    [Some 0%nat; Some 1%nat; Some 2%nat] [] 20 true.

(** A second colony that was given a worker but never a queen. *)
Definition ex_leaderless : AntFarm.t :=
  AntFarm.addAnt (Some 1%nat) (AntFarm.new "Colony2" ex_species).

(** A meadow whose two colonies share the queen object (handle 0). *)
Definition ex_meadow : Meadow.t := Meadow.mk [ex_species] [ex_farm; short_farm].

(** A run of [rand] results, all of them non-negative as the C library
    guarantees. *)
Definition ex_rand (k : nat) : Z := Z.of_nat k * 7919 + 3.

(** Every [emplace_back] evaluating its arguments right to left. *)
Definition ex_order (i : nat) : Meadow.ArgOrder := Meadow.HES.

(** * Properties *)

(** ** Ants *)

Section AntFacts.

Implicit Types (a : Ant.t) (e pool : Z).

Lemma rest_energy a : Ant.energy (Ant.rest a) = Z.min 100 (Ant.energy a + 20).
Proof. reflexivity. Qed.

Lemma work_energy a : Ant.energy (Ant.work a) = Z.max 0 (Ant.energy a - 10).
Proof. reflexivity. Qed.

Lemma needsRest_true a : Ant.needsRest a = true <-> Ant.energy a < 30.
Proof. unfold Ant.needsRest. apply Z.ltb_lt. Qed.

Lemma needsRest_false a : Ant.needsRest a = false <-> 30 <= Ant.energy a.
Proof. unfold Ant.needsRest. rewrite Z.ltb_ge. reflexivity. Qed.

(** [act] only ever writes the [energy] member. *)
Lemma act_frame a :
  Ant.act a = Ant.set_energy (Ant.energy (Ant.act a)) a.
Proof.
  destruct a as [n sp ty e c].
  unfold Ant.act, Ant.DroneAnt_act, Ant.WarriorAnt_act, Ant.QueenAnt_act,
    Ant.needsRest; simpl.
  destruct ty; destruct (e <? 30); reflexivity.
Qed.

Lemma act_foodConsumption a :
  Ant.foodConsumption (Ant.act a) = Ant.foodConsumption a.
Proof. rewrite act_frame. reflexivity. Qed.

Lemma act_type a : Ant.type (Ant.act a) = Ant.type a.
Proof. rewrite act_frame. reflexivity. Qed.

Lemma act_energy a :
  Ant.energy (Ant.act a) = spec_step (Ant.type a) (Ant.energy a).
Proof.
  destruct a as [n sp ty e c].
  unfold Ant.act, Ant.DroneAnt_act, Ant.WarriorAnt_act, Ant.QueenAnt_act,
    Ant.needsRest, spec_step; simpl.
  destruct ty; try (destruct (e <? 30); reflexivity).
  destruct (Z.ltb_spec e 30), (Z.leb_spec 30 e); simpl; try reflexivity; lia.
Qed.

Lemma spec_step_bounds kind e :
  0 <= e <= 100 -> 0 <= spec_step kind e <= 100.
Proof.
  intros He. unfold spec_step.
  destruct kind;
    repeat match goal with
           | |- context [?x <? ?y] => destruct (Z.ltb_spec x y)
           | |- context [?x <=? ?y] => destruct (Z.leb_spec x y)
           end; lia.
Qed.

Lemma act_energy_bounds a :
  0 <= Ant.energy a <= 100 -> 0 <= Ant.energy (Ant.act a) <= 100.
Proof. rewrite act_energy. apply spec_step_bounds. Qed.

Lemma consumeFood_ok a pool :
  Ant.foodConsumption a <= pool ->
  Ant.consumeFood a pool = (true, pool - Ant.foodConsumption a).
Proof.
  intros Hle. unfold Ant.consumeFood.
  destruct (Z.geb_spec pool (Ant.foodConsumption a)); [reflexivity | lia].
Qed.

Lemma consumeFood_fail a pool :
  pool < Ant.foodConsumption a ->
  Ant.consumeFood a pool = (false, pool).
Proof.
  intros Hlt. unfold Ant.consumeFood.
  destruct (Z.geb_spec pool (Ant.foodConsumption a)); [lia | reflexivity].
Qed.

(** What a call of [consumeFood] can do to the referenced supply. *)
Lemma consumeFood_cases a pool ok pool' :
  Ant.consumeFood a pool = (ok, pool') ->
  (ok = true /\ Ant.foodConsumption a <= pool
     /\ pool' = pool - Ant.foodConsumption a)
  \/ (ok = false /\ pool < Ant.foodConsumption a /\ pool' = pool).
Proof.
  unfold Ant.consumeFood.
  destruct (Z.geb_spec pool (Ant.foodConsumption a)); intros [= <- <-];
    [left | right]; repeat split; lia.
Qed.

End AntFacts.

(** C10. Whatever arguments the constructors receive, a new ant (through the
    base constructor or any of the three subclasses) has energy 100 and food
    consumption 10, and a new colony has a food supply of 1000 and is
    active. *)
Theorem constructors_initial_values :
  forall (n : string) (sp : Species) (ty : AntType),
    (Ant.energy (Ant.new n sp ty) = 100
       /\ Ant.foodConsumption (Ant.new n sp ty) = 10)
    /\ (Ant.energy (Ant.DroneAnt n sp) = 100
          /\ Ant.foodConsumption (Ant.DroneAnt n sp) = 10)
    /\ (Ant.energy (Ant.WarriorAnt n sp) = 100
          /\ Ant.foodConsumption (Ant.WarriorAnt n sp) = 10)
    /\ (Ant.energy (Ant.QueenAnt n sp) = 100
          /\ Ant.foodConsumption (Ant.QueenAnt n sp) = 10)
    /\ (AntFarm.foodSupply (AntFarm.new n sp) = 1000
          /\ AntFarm.isActive (AntFarm.new n sp) = true).
Proof. intros n sp ty. repeat split. Qed.

(** C5. One call of [act] leaves the name, the species, the kind and the
    food consumption of the ant as they were, and the energy it leaves is
    the one the specification's rule gives for the ant's kind: a drone or
    warrior below 30 gets [min 100 (energy + 20)] and otherwise
    [max 0 (energy - 10)]; a queen at 30 or more gets [max 0 (energy - 10)]
    and below 30 keeps its energy. *)
Theorem act_refines_spec_step :
  forall a : Ant.t,
    Ant.energy (Ant.act a) = spec_step (Ant.type a) (Ant.energy a)
    /\ Ant.name (Ant.act a) = Ant.name a
    /\ Ant.species (Ant.act a) = Ant.species a
    /\ Ant.type (Ant.act a) = Ant.type a
    /\ Ant.foodConsumption (Ant.act a) = Ant.foodConsumption a
    /\ Ant.act a
       = Ant.mk (Ant.name a) (Ant.species a) (Ant.type a)
           (spec_step (Ant.type a) (Ant.energy a)) (Ant.foodConsumption a).
Proof.
  intros a. destruct a as [n sp ty e c].
  unfold Ant.act, Ant.DroneAnt_act, Ant.WarriorAnt_act, Ant.QueenAnt_act,
    Ant.needsRest, Ant.rest, Ant.work, Ant.set_energy, spec_step.
  cbn [Ant.name Ant.species Ant.type Ant.energy Ant.foodConsumption].
  destruct ty.
  - destruct (e <? 30); repeat split.
  - destruct (e <? 30); repeat split.
  - destruct (Z.ltb_spec e 30), (Z.leb_spec 30 e);
      cbn [negb Ant.name Ant.species Ant.type Ant.energy Ant.foodConsumption];
      first [lia | repeat split].
Qed.

(** C6. For every ant and every supply value, [consumeFood] either finds the
    supply at least [foodConsumption], returns true and leaves the supply
    reduced by exactly [foodConsumption], or finds it smaller, returns false
    and leaves the supply as it was. *)
Theorem consumeFood_result :
  forall (a : Ant.t) (pool : Z),
    (Ant.foodConsumption a <= pool
       /\ Ant.consumeFood a pool = (true, pool - Ant.foodConsumption a))
    \/ (pool < Ant.foodConsumption a
          /\ Ant.consumeFood a pool = (false, pool)).
Proof.
  intros a pool.
  destruct (Z_le_gt_dec (Ant.foodConsumption a) pool) as [Hle | Hgt].
  - left. split; [exact Hle | apply consumeFood_ok, Hle].
  - right. split; [lia | apply consumeFood_fail; lia].
Qed.

(** C3. Starting from any energy between 0 and 100, the energy is between 0
    and 100 after every number of successive calls of [act]. *)
Theorem act_n_energy_bounds :
  forall (n : nat) (a : Ant.t),
    0 <= Ant.energy a <= 100 ->
    0 <= Ant.energy (Ant.act_n n a) <= 100.
Proof.
  induction n as [| k IH]; intros a Ha; simpl.
  - exact Ha.
  - apply IH, act_energy_bounds, Ha.
Qed.

Lemma act_n_energy_bounds_witness :
  0 <= Ant.energy (Ant.act_n 12 (Ant.QueenAnt "Queen1" (mkSpecies "Species0" 5 6 7)))
    <= 100.
Proof.
  apply (act_n_energy_bounds 12 (Ant.QueenAnt "Queen1" (mkSpecies "Species0" 5 6 7))).
  simpl. lia.
Defined.

(** ** The ant store *)

Section StoreFacts.

Implicit Types (h : Heap) (p q : ptr) (a b : Ant.t) (l : list ptr).

Lemma deref_Some_lt h i a : deref h (Some i) = Some a -> (i < length h)%nat.
Proof. simpl. apply lookup_lt_Some. Qed.

Lemma store_length h p a : length (store h p a) = length h.
Proof. destruct p as [i |]; simpl; [apply length_insert | reflexivity]. Qed.

Lemma deref_store_eq h p a a' :
  deref h p = Some a -> deref (store h p a') p = Some a'.
Proof.
  destruct p as [i |]; simpl; [| discriminate].
  intros Hi. apply list_lookup_insert_eq. eapply lookup_lt_Some, Hi.
Qed.

Lemma deref_store_ne h p q a' : p <> q -> deref (store h p a') q = deref h q.
Proof.
  destruct p as [i |], q as [j |]; simpl; intros Hne; try reflexivity.
  apply list_lookup_insert_ne. congruence.
Qed.

(** Writing back the result of [act] never changes which handles are
    valid, nor the [foodConsumption] found behind a handle. *)
Lemma deref_store_act h p q a b :
  deref h p = Some a -> deref h q = Some b ->
  exists b', deref (store h p (Ant.act a)) q = Some b'
             /\ Ant.foodConsumption b' = Ant.foodConsumption b.
Proof.
  intros Hp Hq. destruct (decide (p = q)) as [-> | Hne].
  - exists (Ant.act a). split; [eapply deref_store_eq, Hp |].
    rewrite act_foodConsumption. congruence.
  - exists b. rewrite deref_store_ne by exact Hne. split; [exact Hq | reflexivity].
Qed.

Lemma valid_handles_store h p a a' l :
  deref h p = Some a -> valid_handles h l -> valid_handles (store h p a') l.
Proof.
  intros Hp Hl. unfold valid_handles in *.
  eapply Forall_impl; [exact Hl |]. simpl. intros q [b Hq].
  destruct (decide (p = q)) as [-> | Hne].
  - exists a'. eapply deref_store_eq, Hp.
  - exists b. rewrite deref_store_ne by exact Hne. exact Hq.
Qed.

Lemma rates_nonneg_deref h p a :
  rates_nonneg h -> deref h p = Some a -> 0 <= Ant.foodConsumption a.
Proof.
  unfold rates_nonneg. rewrite Forall_lookup. destruct p as [i |]; simpl.
  - intros Hall Hi. exact (Hall i a Hi).
  - discriminate.
Qed.

Lemma rates_nonneg_store h p a :
  rates_nonneg h -> 0 <= Ant.foodConsumption a -> rates_nonneg (store h p a).
Proof.
  unfold rates_nonneg. intros Hall Ha. destruct p as [i |]; simpl.
  - apply Forall_insert; assumption.
  - exact Hall.
Qed.

Lemma rates_nonneg_make_shared h n sp ty :
  rates_nonneg h -> rates_nonneg (fst (make_shared (Ant.new n sp ty) h)).
Proof.
  unfold rates_nonneg, make_shared. simpl. intros Hall.
  apply Forall_app. split; [exact Hall |].
  apply Forall_singleton. simpl. lia.
Qed.

Lemma act_all_app l1 l2 h : act_all (l1 ++ l2) h = act_all l2 (act_all l1 h).
Proof.
  revert h. induction l1 as [| p l1 IH]; intros h; simpl; [reflexivity |].
  destruct (deref h p); apply IH.
Qed.

(** Handles that are not visited keep their object. *)
Lemma act_all_other l h q : q ∉ l -> deref (act_all l h) q = deref h q.
Proof.
  revert h. induction l as [| p l IH]; intros h Hq; simpl; [reflexivity |].
  apply not_elem_of_cons in Hq as [Hne Hq].
  destruct (deref h p) as [a |] eqn:Hp.
  - rewrite IH by exact Hq. apply deref_store_ne. congruence.
  - apply IH, Hq.
Qed.

End StoreFacts.

(** ** One tick of a colony *)

Section TickFacts.

Implicit Types (h : Heap) (f : AntFarm.t) (p q : ptr) (a : Ant.t)
  (l : list ptr) (tr : list Event) (i j k : nat).

Lemma set_foodSupply_same f : AntFarm.set_foodSupply (AntFarm.foodSupply f) f = f.
Proof. destruct f; reflexivity. Qed.

(** The two ways an iteration of the loop can go. *)
Lemma tick_loop_cons_ok i p l h f a :
  deref h p = Some a ->
  Ant.foodConsumption a <= AntFarm.foodSupply f ->
  AntFarm.tick_loop i (p :: l) h f =
    match AntFarm.tick_loop (S i) l (store h p (Ant.act a))
            (AntFarm.set_foodSupply
               (AntFarm.foodSupply f - Ant.foodConsumption a) f) with
    | None => None
    | Some (h'', f'', tr) =>
        Some (h'', f'', EvAct i p :: EvConsumeFood i p true :: tr)
    end.
Proof.
  intros Hp Hle. simpl. rewrite Hp.
  rewrite consumeFood_ok by (rewrite act_foodConsumption; exact Hle).
  rewrite act_foodConsumption. reflexivity.
Qed.

Lemma tick_loop_cons_fail i p l h f a :
  deref h p = Some a ->
  AntFarm.foodSupply f < Ant.foodConsumption a ->
  AntFarm.tick_loop i (p :: l) h f =
    Some (store h p (Ant.act a), AntFarm.set_isActive false f,
          [EvAct i p; EvConsumeFood i p false]).
Proof.
  intros Hp Hlt. simpl. rewrite Hp.
  rewrite consumeFood_fail by (rewrite act_foodConsumption; exact Hlt).
  simpl. rewrite set_foodSupply_same. reflexivity.
Qed.

(** With valid handles the loop always produces a result. *)
Lemma tick_loop_total l : forall i h f,
  valid_handles h l -> is_Some (AntFarm.tick_loop i l h f).
Proof.
  induction l as [| p l IH]; intros i h f Hv.
  - simpl. eexists. reflexivity.
  - apply Forall_cons in Hv as [[a Hp] Hv].
    destruct (Z_le_gt_dec (Ant.foodConsumption a) (AntFarm.foodSupply f))
      as [Hle | Hgt].
    + rewrite (tick_loop_cons_ok _ _ _ _ _ _ Hp Hle).
      destruct (IH (S i) (store h p (Ant.act a))
                  (AntFarm.set_foodSupply
                     (AntFarm.foodSupply f - Ant.foodConsumption a) f))
        as [[[h'' f''] tr] Heq].
      * eapply valid_handles_store; eassumption.
      * rewrite Heq. eexists. reflexivity.
    + rewrite (tick_loop_cons_fail _ _ _ _ _ _ Hp) by lia.
      eexists. reflexivity.
Qed.

(** The loop writes only [foodSupply] and [isActive]. *)
Lemma tick_loop_frame l : forall i h f h' f' tr,
  AntFarm.tick_loop i l h f = Some (h', f', tr) ->
  AntFarm.name f' = AntFarm.name f
  /\ AntFarm.species f' = AntFarm.species f
  /\ AntFarm.queen f' = AntFarm.queen f
  /\ AntFarm.ants f' = AntFarm.ants f
  /\ AntFarm.rooms f' = AntFarm.rooms f.
Proof.
  induction l as [| p l IH]; intros i h f h' f' tr Hrun.
  - simpl in Hrun. injection Hrun as <- <- <-. repeat split.
  - simpl in Hrun. destruct (deref h p) as [a |]; [| discriminate].
    destruct (Ant.consumeFood (Ant.act a) (AntFarm.foodSupply f)) as [ok food].
    destruct ok; simpl in Hrun.
    + destruct (AntFarm.tick_loop (S i) l _ _) as [[[h2 f2] tr2] |] eqn:Hrec;
        [| discriminate].
      injection Hrun as <- <- <-. apply IH in Hrec. exact Hrec.
    + injection Hrun as <- <- <-. repeat split.
Qed.

(** The supply never grows and never goes below zero, and the store keeps
    its size and its non-negative rates. *)
Lemma tick_loop_food l : forall i h f h' f' tr,
  rates_nonneg h ->
  0 <= AntFarm.foodSupply f ->
  AntFarm.tick_loop i l h f = Some (h', f', tr) ->
  0 <= AntFarm.foodSupply f' <= AntFarm.foodSupply f
  /\ rates_nonneg h' /\ length h' = length h.
Proof.
  induction l as [| p l IH]; intros i h f h' f' tr Hr Hf Hrun.
  - simpl in Hrun. injection Hrun as <- <- <-. repeat split; [lia | lia | exact Hr].
  - simpl in Hrun. destruct (deref h p) as [a |] eqn:Hp; [| discriminate].
    pose proof (rates_nonneg_deref _ _ _ Hr Hp) as Ha.
    assert (Hr' : rates_nonneg (store h p (Ant.act a))).
    { apply rates_nonneg_store; [exact Hr |]. rewrite act_foodConsumption. exact Ha. }
    destruct (Ant.consumeFood (Ant.act a) (AntFarm.foodSupply f))
      as [ok food] eqn:Hc.
    apply consumeFood_cases in Hc. rewrite act_foodConsumption in Hc.
    destruct Hc as [(-> & Hle & ->) | (-> & Hlt & ->)]; simpl in Hrun.
    + destruct (AntFarm.tick_loop (S i) l _ _) as [[[h2 f2] tr2] |] eqn:Hrec;
        [| discriminate].
      injection Hrun as <- <- <-.
      apply IH in Hrec; [| exact Hr' | simpl; lia].
      simpl in Hrec. destruct Hrec as (Hb & Hr2 & Hlen).
      rewrite store_length in Hlen. repeat split; [lia | lia | exact Hr2 | exact Hlen].
    + injection Hrun as <- <- <-. simpl.
      rewrite store_length. repeat split; [lia | lia | exact Hr'].
Qed.

End TickFacts.

(** ** The calls made during a tick *)

Section CallFacts.

Implicit Types (h : Heap) (f : AntFarm.t) (p q : ptr) (a : Ant.t)
  (l : list ptr) (tr : list Event) (ev : Event) (i j k : nat).

Lemma ok_calls_pos l : forall i ev,
  ev ∈ ok_calls i l -> (i <= ev_pos ev < i + length l)%nat.
Proof.
  induction l as [| p l IH]; intros i ev Hin; simpl in *.
  - apply elem_of_nil in Hin. contradiction.
  - apply elem_of_cons in Hin as [-> | Hin]; [simpl; lia |].
    apply elem_of_cons in Hin as [-> | Hin]; [simpl; lia |].
    apply IH in Hin. lia.
Qed.

Lemma ok_calls_no_failure l : forall i j p,
  EvConsumeFood j p false ∉ ok_calls i l.
Proof.
  induction l as [| q l IH]; intros i j p Hin; simpl in *.
  - apply elem_of_nil in Hin. contradiction.
  - apply elem_of_cons in Hin as [Heq | Hin]; [discriminate |].
    apply elem_of_cons in Hin as [Heq | Hin]; [discriminate |].
    exact (IH _ _ _ Hin).
Qed.

Lemma ok_calls_act l : forall i k q,
  l !! k = Some q -> EvAct (i + k) q ∈ ok_calls i l.
Proof.
  induction l as [| p l IH]; intros i k q Hk; [discriminate |].
  destruct k as [| k]; simpl in *.
  - injection Hk as ->. rewrite Nat.add_0_r. apply list_elem_of_here.
  - do 2 apply list_elem_of_further.
    replace (i + S k)%nat with (S i + k)%nat by lia. apply IH, Hk.
Qed.

Lemma act_all_take_S l k p a h :
  l !! k = Some p ->
  deref (act_all (take k l) h) p = Some a ->
  act_all (take (S k) l) h = store (act_all (take k l) h) p (Ant.act a).
Proof.
  intros Hk Hp. rewrite (take_S_r _ _ _ Hk), act_all_app. simpl.
  rewrite Hp. reflexivity.
Qed.

(** A run of the loop either visits every handle with every withdrawal
    succeeding, or stops at the first position [k] whose withdrawal fails:
    the calls before [k] all succeeded, the ant at [k] has had [act]
    applied, and the colony is marked inactive. *)
Lemma tick_loop_shape l : forall i h f h' f' tr,
  AntFarm.tick_loop i l h f = Some (h', f', tr) ->
  (tr = ok_calls i l /\ h' = act_all l h
     /\ AntFarm.isActive f' = AntFarm.isActive f)
  \/ (exists k p a,
        l !! k = Some p
        /\ tr = ok_calls i (take k l)
                  ++ [EvAct (i + k) p; EvConsumeFood (i + k) p false]
        /\ deref (act_all (take k l) h) p = Some a
        /\ h' = store (act_all (take k l) h) p (Ant.act a)
        /\ AntFarm.isActive f' = false).
Proof.
  induction l as [| p l IH]; intros i h f h' f' tr Hrun.
  - simpl in Hrun. injection Hrun as <- <- <-. left. repeat split.
  - simpl in Hrun. destruct (deref h p) as [a |] eqn:Hp; [| discriminate].
    destruct (Ant.consumeFood (Ant.act a) (AntFarm.foodSupply f)) as [ok food].
    destruct ok; simpl in Hrun.
    + destruct (AntFarm.tick_loop (S i) l _ _) as [[[h2 f2] tr2] |] eqn:Hrec;
        [| discriminate].
      injection Hrun as <- <- <-.
      apply IH in Hrec as [(-> & -> & Hact) | (k & q & b & Hk & -> & Hq & -> & Hact)].
      * left. simpl. rewrite Hp. repeat split. exact Hact.
      * right. exists (S k), q, b. simpl. rewrite Hp.
        replace (i + S k)%nat with (S i + k)%nat by lia.
        repeat split; assumption.
    + injection Hrun as <- <- <-. right. exists 0%nat, p, a.
      simpl. rewrite Nat.add_0_r. repeat split. exact Hp.
Qed.

End CallFacts.

(** [short_farm] and [short_heap] are what the program reaches by the run
    described above. *)
Lemma short_farm_reached :
  exists f98 tr,
    AntFarm.tick_n 98 ex_heap ex_farm = Some (short_heap, f98, tr)
    /\ AntFarm.addAnt (Some 2%nat) (AntFarm.addAnt (Some 1%nat) f98) = short_farm.
Proof.
  destruct (AntFarm.tick_n 98 ex_heap ex_farm) as [[[h f] tr] |] eqn:Hrun;
    vm_compute in Hrun; [| discriminate].
  injection Hrun as <- <- <-.
  eexists _, _. split; reflexivity.
Qed.

(** ** Colonies *)

Section ColonyFacts.

Implicit Types (h : Heap) (f : AntFarm.t) (p q : ptr) (l : list ptr).

Lemma tick_guard_open h f :
  AntFarm.isActive f = true -> is_null (AntFarm.queen f) = false ->
  AntFarm.tick h f = AntFarm.tick_loop 0 (AntFarm.ants f) h f.
Proof. intros Hact Hq. unfold AntFarm.tick. rewrite Hact, Hq. reflexivity. Qed.

Lemma tick_guard_closed h f :
  AntFarm.isActive f = false \/ is_null (AntFarm.queen f) = true ->
  AntFarm.tick h f = Some (h, f, []).
Proof.
  intros [Hact | Hq]; unfold AntFarm.tick.
  - rewrite Hact. reflexivity.
  - rewrite Hq, orb_true_r. reflexivity.
Qed.

Lemma isActiveColony_false f :
  AntFarm.isActiveColony f = false <->
  AntFarm.isActive f = false \/ is_null (AntFarm.queen f) = true.
Proof.
  unfold AntFarm.isActiveColony.
  destruct (AntFarm.isActive f), (is_null (AntFarm.queen f)); simpl; intuition congruence.
Qed.

Lemma valid_handles_length h h' l :
  length h' = length h -> valid_handles h l -> valid_handles h' l.
Proof.
  intros Hlen Hv. unfold valid_handles in *.
  eapply Forall_impl; [exact Hv |]. simpl. intros [i |] Hi; simpl in *.
  - apply lookup_lt_is_Some in Hi. apply lookup_lt_is_Some. lia.
  - exact Hi.
Qed.

(** One tick under the store invariants: it returns, the supply is
    bounded as claimed, and the invariants hold again afterwards. *)
Lemma tick_food h f :
  valid_handles h (AntFarm.ants f) ->
  rates_nonneg h ->
  0 <= AntFarm.foodSupply f ->
  exists h' f' tr,
    AntFarm.tick h f = Some (h', f', tr)
    /\ 0 <= AntFarm.foodSupply f' <= AntFarm.foodSupply f
    /\ valid_handles h' (AntFarm.ants f')
    /\ rates_nonneg h'.
Proof.
  intros Hv Hr Hf. unfold AntFarm.tick.
  destruct (negb (AntFarm.isActive f) || is_null (AntFarm.queen f)).
  - exists h, f, []. repeat split; [lia | lia | exact Hv | exact Hr].
  - destruct (tick_loop_total (AntFarm.ants f) 0 h f Hv) as [[[h' f'] tr] Hrun].
    exists h', f', tr. split; [exact Hrun |].
    destruct (tick_loop_food _ _ _ _ _ _ _ Hr Hf Hrun) as (Hb & Hr' & Hlen).
    destruct (tick_loop_frame _ _ _ _ _ _ _ Hrun) as (_ & _ & _ & Hants & _).
    rewrite Hants. repeat split; [lia | lia | | exact Hr'].
    eapply valid_handles_length; eassumption.
Qed.

(** The same over any number of ticks: the supply of a colony never goes
    up and never below zero. *)
Lemma tick_n_food n : forall h f,
  valid_handles h (AntFarm.ants f) ->
  rates_nonneg h ->
  0 <= AntFarm.foodSupply f ->
  exists h' f' tr,
    AntFarm.tick_n n h f = Some (h', f', tr)
    /\ 0 <= AntFarm.foodSupply f' <= AntFarm.foodSupply f.
Proof.
  induction n as [| n IH]; intros h f Hv Hr Hf; simpl.
  - exists h, f, []. split; [reflexivity | lia].
  - destruct (tick_food h f Hv Hr Hf) as (h1 & f1 & tr1 & -> & Hb1 & Hv1 & Hr1).
    destruct (IH h1 f1 Hv1 Hr1 ltac:(lia)) as (h2 & f2 & tr2 & -> & Hb2).
    exists h2, f2, (tr1 ++ tr2). split; [reflexivity | lia].
Qed.

End ColonyFacts.

(** C4. Take any colony whose members are all live objects, a store in which
    no ant has a negative food consumption and a food supply that is not
    negative (what the constructors establish: consumption 10, supply 1000).
    Then a tick returns, the supply after it is at most the supply before
    it and is still not negative, and the assumptions hold again for the
    next tick.  No other colony operation ([setQueen], [addAnt], [addRoom])
    touches the supply, so nothing ever replenishes it. *)
Theorem tick_foodSupply_never_grows :
  forall (h : Heap) (f : AntFarm.t),
    valid_handles h (AntFarm.ants f) ->
    rates_nonneg h ->
    0 <= AntFarm.foodSupply f ->
    (exists h' f' tr,
        AntFarm.tick h f = Some (h', f', tr)
        /\ 0 <= AntFarm.foodSupply f' <= AntFarm.foodSupply f
        /\ valid_handles h' (AntFarm.ants f')
        /\ rates_nonneg h')
    /\ (forall p : ptr,
          AntFarm.foodSupply (AntFarm.setQueen p f) = AntFarm.foodSupply f
          /\ AntFarm.foodSupply (AntFarm.addAnt p f) = AntFarm.foodSupply f
          /\ AntFarm.foodSupply (AntFarm.addRoom p f) = AntFarm.foodSupply f).
Proof.
  intros h f Hv Hr Hf. split.
  - apply tick_food; assumption.
  - intros p. repeat split.
Qed.

Lemma short_heap_valid : valid_handles short_heap (AntFarm.ants short_farm).
Proof. repeat constructor; eexists; reflexivity. Defined.

Lemma short_heap_rates : rates_nonneg short_heap.
Proof. repeat constructor; simpl; discriminate. Defined.

Lemma tick_foodSupply_never_grows_witness :
  valid_handles short_heap (AntFarm.ants short_farm)
  /\ rates_nonneg short_heap
  /\ 0 <= AntFarm.foodSupply short_farm
  /\ exists h' f' tr,
       AntFarm.tick short_heap short_farm = Some (h', f', tr)
       /\ 0 <= AntFarm.foodSupply f' <= AntFarm.foodSupply short_farm
       /\ valid_handles h' (AntFarm.ants f')
       /\ rates_nonneg h'.
Proof.
  split; [exact short_heap_valid |].
  split; [exact short_heap_rates |].
  split; [simpl; lia |].
  apply (tick_foodSupply_never_grows short_heap short_farm).
  - exact short_heap_valid.
  - exact short_heap_rates.
  - simpl. lia.
Defined.

(** C7. If a colony is inactive or has no queen, any number of ticks makes
    no member call and returns the store and the colony exactly as they
    were: the supply, the active flag and every ant's energy are unchanged.
    In particular [isActiveColony] is false and stays false. *)
Theorem tick_n_inactive_noop :
  forall (n : nat) (h : Heap) (f : AntFarm.t),
    AntFarm.isActive f = false \/ is_null (AntFarm.queen f) = true ->
    AntFarm.tick_n n h f = Some (h, f, [])
    /\ AntFarm.isActiveColony f = false.
Proof.
  intros n h f Hoff. split; [| apply isActiveColony_false, Hoff].
  induction n as [| n IH]; simpl; [reflexivity |].
  rewrite (tick_guard_closed h f Hoff), IH. reflexivity.
Qed.

Lemma tick_n_inactive_noop_witness :
  (AntFarm.isActive ex_leaderless = false
     \/ is_null (AntFarm.queen ex_leaderless) = true)
  /\ AntFarm.tick_n 7 ex_heap ex_leaderless = Some (ex_heap, ex_leaderless, [])
  /\ AntFarm.isActiveColony ex_leaderless = false.
Proof.
  split; [right; reflexivity |].
  apply (tick_n_inactive_noop 7 ex_heap ex_leaderless).
  right. reflexivity.
Defined.

(** C9. In a tick of an active colony with a queen, suppose the call of
    [consumeFood] at position [i] (on handle [p]) returns false.  Then [p]
    is the member at position [i]; [act] has been called at every position
    up to and including [i]; no call at all, neither [act] nor
    [consumeFood], has been made at a later position; the store is the
    initial one with [act] applied once per position up to [i], in order, so
    a handle that does not occur among those positions keeps its object
    while the failing member itself has had [act] applied although its
    withdrawal failed; and the colony is left inactive. *)
Theorem tick_stops_at_first_failure :
  forall (h h' : Heap) (f f' : AntFarm.t) (tr : list Event) (i : nat) (p : ptr),
    AntFarm.isActive f = true ->
    is_null (AntFarm.queen f) = false ->
    AntFarm.tick h f = Some (h', f', tr) ->
    EvConsumeFood i p false ∈ tr ->
    AntFarm.ants f !! i = Some p
    /\ (forall j q, (j <= i)%nat -> AntFarm.ants f !! j = Some q -> EvAct j q ∈ tr)
    /\ (forall j q, (i < j)%nat ->
          (EvAct j q ∉ tr) /\ (forall ok, EvConsumeFood j q ok ∉ tr))
    /\ h' = act_all (take (S i) (AntFarm.ants f)) h
    /\ (forall q, q ∉ take (S i) (AntFarm.ants f) -> deref h' q = deref h q)
    /\ (exists a, deref (act_all (take i (AntFarm.ants f)) h) p = Some a
                  /\ deref h' p = Some (Ant.act a))
    /\ AntFarm.isActive f' = false.
Proof.
  intros h h' f f' tr i p Hact Hq Hrun Hfail.
  rewrite (tick_guard_open _ _ Hact Hq) in Hrun.
  apply tick_loop_shape in Hrun
    as [(-> & _ & _) | (k & p' & a & Hk & -> & Hp & -> & Hoff)].
  { exfalso. exact (ok_calls_no_failure _ _ _ _ Hfail). }
  simpl in Hfail.
  assert (Hik : i = k /\ p = p').
  { apply elem_of_app in Hfail as [Hfail | Hfail].
    - exfalso. exact (ok_calls_no_failure _ _ _ _ Hfail).
    - apply elem_of_cons in Hfail as [Heq | Hfail]; [discriminate |].
      apply elem_of_cons in Hfail as [Heq | Hfail].
      + injection Heq as -> ->. split; reflexivity.
      + apply elem_of_nil in Hfail. contradiction. }
  destruct Hik as [-> <-]. simpl.
  pose proof (act_all_take_S _ _ _ _ _ Hk Hp) as Hall.
  split; [exact Hk |].
  split.
  { intros j q Hj Hjq. apply elem_of_app.
    destruct (decide (j = k)) as [-> | Hne].
    - right. rewrite Hk in Hjq. injection Hjq as <-. apply list_elem_of_here.
    - left. apply (ok_calls_act _ 0%nat j q).
      rewrite lookup_take_lt by lia. exact Hjq. }
  split.
  { assert (Hpos : forall ev,
               ev ∈ ok_calls 0 (take k (AntFarm.ants f))
                      ++ [EvAct k p; EvConsumeFood k p false] ->
               (ev_pos ev <= k)%nat).
    { intros ev Hev. apply elem_of_app in Hev as [Hev | Hev].
      - apply ok_calls_pos in Hev. rewrite length_take in Hev. lia.
      - apply elem_of_cons in Hev as [-> | Hev]; [simpl; lia |].
        apply elem_of_cons in Hev as [-> | Hev]; [simpl; lia |].
        apply elem_of_nil in Hev. contradiction. }
    intros j q Hj. split; [| intros ok]; intros Hev;
      apply Hpos in Hev; simpl in Hev; lia. }
  split; [symmetry; exact Hall |].
  split.
  { intros q Hq'. rewrite <- Hall. apply act_all_other, Hq'. }
  split; [| exact Hoff].
  exists a. split; [exact Hp |]. eapply deref_store_eq, Hp.
Qed.

Lemma tick_stops_at_first_failure_witness :
  (AntFarm.isActive short_farm = true
   /\ is_null (AntFarm.queen short_farm) = false
   /\ (snd <$> AntFarm.tick short_heap short_farm)
        = Some [EvAct 0 (Some 0%nat); EvConsumeFood 0 (Some 0%nat) true;
                EvAct 1 (Some 1%nat); EvConsumeFood 1 (Some 1%nat) true;
                EvAct 2 (Some 2%nat); EvConsumeFood 2 (Some 2%nat) false])
  /\ AntFarm.ants short_farm !! 2%nat = Some (Some 2%nat)
  /\ (Ant.energy <$> deref short_heap (Some 2%nat)) = Some 100
  /\ (Ant.energy <$>
        deref [Ant.mk "Queen1" ex_species QUEEN 20 10;
               Ant.mk "Drone1" ex_species DRONE 90 10;
               Ant.mk "Warrior1" ex_species WARRIOR 90 10] (Some 2%nat))
       = Some (Ant.energy (Ant.act (Ant.WarriorAnt "Warrior1" ex_species))).
Proof.
  split; [repeat split |].
  pose proof (tick_stops_at_first_failure short_heap
    [Ant.mk "Queen1" ex_species QUEEN 20 10;
     Ant.mk "Drone1" ex_species DRONE 90 10;
     Ant.mk "Warrior1" ex_species WARRIOR 90 10]
    short_farm
    (AntFarm.mk "Colony1" ex_species (Some 0%nat)
       [Some 0%nat; Some 1%nat; Some 2%nat] [] 0 false)
    [EvAct 0 (Some 0%nat); EvConsumeFood 0 (Some 0%nat) true;
     EvAct 1 (Some 1%nat); EvConsumeFood 1 (Some 1%nat) true;
     EvAct 2 (Some 2%nat); EvConsumeFood 2 (Some 2%nat) false]
    2%nat (Some 2%nat)) as Hthm.
  destruct Hthm as (Hmem & _ & _ & _ & _ & (a & Hbefore & Hafter) & _).
  - reflexivity.
  - reflexivity.
  - vm_compute. reflexivity.
  - do 5 apply list_elem_of_further. apply list_elem_of_here.
  - split; [exact Hmem |]. split; [reflexivity |].
    rewrite Hafter. vm_compute in Hbefore. injection Hbefore as <-. reflexivity.
Defined.

(** C2, as stated, fails.  [short_farm] is active, has its queen, holds the
    three members [A; B; C] = handles 0, 1, 2 and 20 units of food, which
    covers the consumption of A and B (10 + 10) but not of all three.  Its
    tick deducts exactly 20 and leaves it inactive, but [consumeFood] IS
    called on C, at position 2: that call is the one that returns false. *)
Lemma short_supply_third_withdrawal_attempted :
  AntFarm.isActive short_farm = true
  /\ is_null (AntFarm.queen short_farm) = false
  /\ AntFarm.ants short_farm = [Some 0%nat; Some 1%nat; Some 2%nat]
  /\ (Ant.foodConsumption <$> short_heap) = [10; 10; 10]
  /\ 10 + 10 <= AntFarm.foodSupply short_farm < 10 + 10 + 10
  /\ AntFarm.tick short_heap short_farm =
       Some ([Ant.mk "Queen1" ex_species QUEEN 20 10;
              Ant.mk "Drone1" ex_species DRONE 90 10;
              Ant.mk "Warrior1" ex_species WARRIOR 90 10],
             AntFarm.mk "Colony1" ex_species (Some 0%nat)
               [Some 0%nat; Some 1%nat; Some 2%nat] [] 0 false,
             [EvAct 0 (Some 0%nat); EvConsumeFood 0 (Some 0%nat) true;
              EvAct 1 (Some 1%nat); EvConsumeFood 1 (Some 1%nat) true;
              EvAct 2 (Some 2%nat); EvConsumeFood 2 (Some 2%nat) false])
  /\ ~ (forall h' f' tr,
          AntFarm.tick short_heap short_farm = Some (h', f', tr) ->
          forall ok, EvConsumeFood 2 (Some 2%nat) ok ∉ tr).
Proof.
  repeat (split; [first [reflexivity | simpl; lia] |]).
  intros Hnever.
  apply (Hnever _ _ _ eq_refl false).
  do 5 apply list_elem_of_further. apply list_elem_of_here.
Qed.

(** C2, amended.  Let an active colony with a queen hold the members
    [A; B; C] in that order, and let its supply cover the consumption of A
    and that of A and B together, but not that of all three.  Then the tick
    returns; it has called [act] and [consumeFood] on A, on B and on C in
    that order, the first two withdrawals succeeding and the third one
    failing; the supply it leaves is the initial one less exactly the
    consumptions of A and B; the active flag it leaves is false; and the
    other members of the colony object are as before. *)
Theorem tick_three_members_short_supply :
  forall (h : Heap) (f : AntFarm.t) (pa pb pc : ptr) (A B C : Ant.t),
    AntFarm.isActive f = true ->
    is_null (AntFarm.queen f) = false ->
    AntFarm.ants f = [pa; pb; pc] ->
    deref h pa = Some A -> deref h pb = Some B -> deref h pc = Some C ->
    Ant.foodConsumption A <= AntFarm.foodSupply f ->
    Ant.foodConsumption A + Ant.foodConsumption B <= AntFarm.foodSupply f ->
    AntFarm.foodSupply f
      < Ant.foodConsumption A + Ant.foodConsumption B + Ant.foodConsumption C ->
    exists h' f',
      AntFarm.tick h f =
        Some (h', f',
              [EvAct 0 pa; EvConsumeFood 0 pa true;
               EvAct 1 pb; EvConsumeFood 1 pb true;
               EvAct 2 pc; EvConsumeFood 2 pc false])
      /\ AntFarm.foodSupply f'
         = AntFarm.foodSupply f - Ant.foodConsumption A - Ant.foodConsumption B
      /\ AntFarm.isActive f' = false
      /\ AntFarm.isActiveColony f' = false
      /\ f' = AntFarm.mk (AntFarm.name f) (AntFarm.species f) (AntFarm.queen f)
                (AntFarm.ants f) (AntFarm.rooms f)
                (AntFarm.foodSupply f
                   - Ant.foodConsumption A - Ant.foodConsumption B)
                false.
Proof.
  intros h f pa pb pc A B C Hact Hq Hants HA HB HC HcovA Hcover Hshort.
  rewrite (tick_guard_open _ _ Hact Hq), Hants.
  (* A acts and eats *)
  rewrite (tick_loop_cons_ok _ _ _ _ _ _ HA) by lia.
  destruct (deref_store_act _ _ _ _ _ HA HB) as (B' & HB' & HcB).
  destruct (deref_store_act _ _ _ _ _ HA HC) as (C1 & HC1 & HcC1).
  (* B acts and eats *)
  rewrite (tick_loop_cons_ok _ _ _ _ _ _ HB')
    by (cbn [AntFarm.foodSupply AntFarm.set_foodSupply]; lia).
  destruct (deref_store_act _ _ _ _ _ HB' HC1) as (C' & HC' & HcC).
  (* C acts and finds too little *)
  rewrite (tick_loop_cons_fail _ _ _ _ _ _ HC')
    by (cbn [AntFarm.foodSupply AntFarm.set_foodSupply]; lia).
  eexists _, _. split; [reflexivity |]. rewrite HcB.
  destruct f as [n sp q l rs food act].
  cbn [AntFarm.ants] in Hants. subst l.
  cbn [AntFarm.foodSupply AntFarm.isActive AntFarm.set_foodSupply
       AntFarm.set_isActive AntFarm.name AntFarm.species AntFarm.queen
       AntFarm.ants AntFarm.rooms].
  unfold AntFarm.isActiveColony.
  cbn [AntFarm.isActive andb]. repeat split.
Qed.

Lemma tick_three_members_short_supply_witness :
  (AntFarm.isActive short_farm = true
   /\ is_null (AntFarm.queen short_farm) = false
   /\ 10 <= AntFarm.foodSupply short_farm
   /\ 10 + 10 <= AntFarm.foodSupply short_farm < 10 + 10 + 10)
  /\ exists h' f',
       AntFarm.tick short_heap short_farm =
         Some (h', f',
               [EvAct 0 (Some 0%nat); EvConsumeFood 0 (Some 0%nat) true;
                EvAct 1 (Some 1%nat); EvConsumeFood 1 (Some 1%nat) true;
                EvAct 2 (Some 2%nat); EvConsumeFood 2 (Some 2%nat) false])
       /\ AntFarm.foodSupply f' = 0
       /\ AntFarm.isActive f' = false.
Proof.
  split.
  { split; [reflexivity |]. split; [reflexivity |]. simpl. lia. }
  destruct (tick_three_members_short_supply short_heap short_farm
              (Some 0%nat) (Some 1%nat) (Some 2%nat)
              (Ant.mk "Queen1" ex_species QUEEN 20 10)
              (Ant.DroneAnt "Drone1" ex_species)
              (Ant.WarriorAnt "Warrior1" ex_species))
    as (h' & f' & Hrun & Hfood & Hoff & _).
  - reflexivity.
  - reflexivity.
  - reflexivity.
  - reflexivity.
  - reflexivity.
  - reflexivity.
  - simpl. lia.
  - simpl. lia.
  - simpl. lia.
  - exists h', f'. split; [exact Hrun |]. split; [exact Hfood | exact Hoff].
Defined.

(** ** The queen of a colony *)

(** C1, as stated, fails.  [ex_farm] already holds its queen (handle 0, a
    [QueenAnt]) as a member; calling [setQueen] with that same handle again
    appends it a second time. *)
Lemma setQueen_appends_present_member :
  (Ant.type <$> deref ex_heap (Some 0%nat)) = Some QUEEN
  /\ Some 0%nat ∈ AntFarm.ants ex_farm
  /\ AntFarm.ants (AntFarm.setQueen (Some 0%nat) ex_farm)
       = [Some 0%nat; Some 0%nat]
  /\ AntFarm.ants (AntFarm.setQueen (Some 0%nat) ex_farm) <> AntFarm.ants ex_farm.
Proof.
  split; [reflexivity |].
  split; [apply list_elem_of_here |].
  split; [reflexivity | discriminate].
Qed.

(** C1, amended.  [setQueen q] stores [q] as the queen and appends [q] to
    the members whether or not it is already there, touching nothing else.
    After a second call with [q2] the stored queen is [q2], and the first
    queen [q1] is still a member, right before [q2]. *)
Theorem setQueen_always_appends :
  forall (f : AntFarm.t) (q1 q2 : ptr),
    AntFarm.setQueen q1 f
      = AntFarm.mk (AntFarm.name f) (AntFarm.species f) q1
          (AntFarm.ants f ++ [q1]) (AntFarm.rooms f)
          (AntFarm.foodSupply f) (AntFarm.isActive f)
    /\ AntFarm.queen (AntFarm.setQueen q2 (AntFarm.setQueen q1 f)) = q2
    /\ AntFarm.ants (AntFarm.setQueen q2 (AntFarm.setQueen q1 f))
         = AntFarm.ants f ++ [q1; q2]
    /\ q1 ∈ AntFarm.ants (AntFarm.setQueen q2 (AntFarm.setQueen q1 f)).
Proof.
  intros f q1 q2.
  assert (Hants : AntFarm.ants (AntFarm.setQueen q2 (AntFarm.setQueen q1 f))
                  = AntFarm.ants f ++ [q1; q2]).
  { simpl. rewrite <- app_assoc. reflexivity. }
  repeat split; try assumption.
  rewrite Hants. apply elem_of_app. right. apply list_elem_of_here.
Qed.

(** ** The meadow *)

Lemma count_if_filter {A : Type} (pred : A -> bool) (l : list A) :
  Meadow.count_if pred l = Z.of_nat (length (List.filter pred l)).
Proof.
  induction l as [| x l IH]; simpl; [reflexivity |].
  rewrite IH. destruct (pred x); simpl length; lia.
Qed.

(** C8. [simulationComplete] is true exactly when at most one colony of the
    meadow satisfies [isActiveColony]; hence a meadow holding exactly one
    colony, in whatever state, reports completion without any tick having
    been made. *)
Theorem simulationComplete_single_colony :
  forall (sp : list Species) (f : AntFarm.t) (m : Meadow.t),
    (Meadow.simulationComplete m = true
       <-> (length (List.filter AntFarm.isActiveColony (Meadow.farms m)) <= 1)%nat)
    /\ Meadow.simulationComplete (Meadow.mk sp [f]) = true.
Proof.
  intros sp f m. split.
  - unfold Meadow.simulationComplete. rewrite count_if_filter, Z.leb_le. lia.
  - unfold Meadow.simulationComplete. simpl.
    destruct (AntFarm.isActiveColony f); reflexivity.
Qed.

(** The meadow as [main] has it after its first [createAntFarm]. *)
Lemma createAntFarm_first_complete (sp : list Species) (n : string) (s : Species) :
  Meadow.simulationComplete (fst (Meadow.createAntFarm n s (Meadow.mk sp []))) = true.
Proof. reflexivity. Qed.

(** A tick of the meadow keeps the colonies in place, one state per colony. *)
Lemma tick_farms_length (l : list AntFarm.t) : forall (h h' : Heap) l',
  Meadow.tick_farms l h = Some (h', l') -> length l' = length l.
Proof.
  induction l as [| f l IH]; intros h h' l' Hrun; simpl in Hrun.
  - injection Hrun as <- <-. reflexivity.
  - destruct (AntFarm.tick h f) as [[[h1 f1] tr1] |]; [| discriminate].
    destruct (Meadow.tick_farms l h1) as [[h2 fs] |] eqn:Hrec; [| discriminate].
    injection Hrun as <- <-. simpl. f_equal. eapply IH, Hrec.
Qed.

(** ** Range of the [int] arithmetic *)

Section IntRange.

(** The sums and differences [act] evaluates are representable whenever
    the energy it reads is. *)
Lemma act_no_overflow (a : Ant.t) :
  in_int (Ant.energy a) ->
  (Ant.needsRest a = true -> in_int (Ant.energy a + 20))
  /\ (Ant.needsRest a = false -> in_int (Ant.energy a - 10))
  /\ in_int (Ant.energy (Ant.act a)).
Proof.
  unfold in_int, int_min, int_max. intros Ha.
  split; [intros Hrest; apply needsRest_true in Hrest; lia |].
  split; [intros Hwork; apply needsRest_false in Hwork; lia |].
  rewrite act_energy. unfold spec_step. destruct (Ant.type a);
    repeat match goal with
           | |- context [?x <? ?y] => destruct (Z.ltb_spec x y)
           | |- context [?x <=? ?y] => destruct (Z.leb_spec x y)
           end; lia.
Qed.

(** The difference [consumeFood] stores is representable whenever the
    supply is and the consumption is not negative. *)
Lemma consumeFood_no_overflow (a : Ant.t) (pool : Z) :
  in_int pool -> 0 <= Ant.foodConsumption a ->
  in_int (snd (Ant.consumeFood a pool)).
Proof.
  unfold in_int, int_min, int_max, Ant.consumeFood. intros Hp Ha.
  destruct (Z.geb_spec pool (Ant.foodConsumption a)); simpl; lia.
Qed.

End IntRange.

(** * Further properties of the code *)

(** ** Energy over many steps *)

Section EnergyDynamics.

Implicit Types (a : Ant.t) (n m : nat).

Lemma act_n_add n m a : Ant.act_n (n + m) a = Ant.act_n m (Ant.act_n n a).
Proof.
  revert a. induction n as [| n IH]; intros a; simpl; [reflexivity | apply IH].
Qed.

Lemma act_as_step a :
  Ant.act a = Ant.set_energy (spec_step (Ant.type a) (Ant.energy a)) a.
Proof. rewrite <- act_energy. apply act_frame. Qed.

Lemma act_n_type n : forall a, Ant.type (Ant.act_n n a) = Ant.type a.
Proof.
  induction n as [| n IH]; intros a; simpl; [reflexivity |].
  rewrite IH. apply act_type.
Qed.

Lemma act_energy_floor a :
  20 <= Ant.energy a <= 100 -> 20 <= Ant.energy (Ant.act a) <= 100.
Proof.
  intros He. rewrite act_energy. unfold spec_step.
  destruct (Ant.type a);
    repeat match goal with
           | |- context [?x <? ?y] => destruct (Z.ltb_spec x y)
           | |- context [?x <=? ?y] => destruct (Z.leb_spec x y)
           end; lia.
Qed.

Lemma act_n_energy_floor n : forall a,
  20 <= Ant.energy a <= 100 -> 20 <= Ant.energy (Ant.act_n n a) <= 100.
Proof.
  induction n as [| n IH]; intros a He; simpl; [exact He |].
  apply IH, act_energy_floor, He.
Qed.

(** A queen whose energy is [20 + 10 m] loses 10 per step until it is at 20. *)
Lemma queen_countdown n : forall a,
  Ant.type a = QUEEN ->
  (exists k, 0 <= k /\ Ant.energy a = 20 + 10 * k) ->
  Ant.energy (Ant.act_n n a) = Z.max 20 (Ant.energy a - 10 * Z.of_nat n).
Proof.
  induction n as [| n IH]; intros a Hq (k & Hk & He).
  - simpl. lia.
  - cbn [Ant.act_n]. rewrite IH.
    + rewrite act_energy, Hq. unfold spec_step.
      destruct (Z.leb_spec 30 (Ant.energy a)); lia.
    + rewrite act_type. exact Hq.
    + rewrite act_energy, Hq. unfold spec_step.
      destruct (Z.leb_spec 30 (Ant.energy a)).
      * exists (k - 1). lia.
      * exists k. lia.
Qed.

End EnergyDynamics.

(** X1. Whatever its kind, an ant made by the constructor has an energy
    between 20 and 100 after any number of calls of [act]: it never gets
    near 0, and the clamps [max(0, .)] and [min(100, .)] of [work] and
    [rest] never take effect. *)
Theorem new_ant_energy_range :
  forall (n : nat) (nm : string) (sp : Species) (ty : AntType),
    20 <= Ant.energy (Ant.act_n n (Ant.new nm sp ty)) <= 100
    /\ Ant.energy (Ant.act (Ant.act_n n (Ant.new nm sp ty)))
       ∈ [Ant.energy (Ant.act_n n (Ant.new nm sp ty)) + 20;
          Ant.energy (Ant.act_n n (Ant.new nm sp ty)) - 10;
          Ant.energy (Ant.act_n n (Ant.new nm sp ty))].
Proof.
  intros n nm sp ty.
  assert (Hr : 20 <= Ant.energy (Ant.act_n n (Ant.new nm sp ty)) <= 100).
  { apply act_n_energy_floor. simpl. lia. }
  split; [exact Hr |].
  rewrite act_energy. unfold spec_step.
  set (e := Ant.energy (Ant.act_n n (Ant.new nm sp ty))) in *.
  destruct (Ant.type (Ant.act_n n (Ant.new nm sp ty)));
    repeat match goal with
           | |- context [?x <? ?y] => destruct (Z.ltb_spec x y)
           | |- context [?x <=? ?y] => destruct (Z.leb_spec x y)
           end;
    first [ rewrite Z.min_r by lia; apply list_elem_of_here
          | rewrite Z.max_r by lia;
            apply list_elem_of_further, list_elem_of_here
          | do 2 apply list_elem_of_further; apply list_elem_of_here ].
Qed.

(** X2. A queen whose energy is below 30 is stuck: no number of calls of
    [act] changes it in any way, so it never recovers. *)
Theorem queen_below_threshold_stuck :
  forall (n : nat) (a : Ant.t),
    Ant.type a = QUEEN -> Ant.energy a < 30 -> Ant.act_n n a = a.
Proof.
  induction n as [| n IH]; intros a Hq He; simpl; [reflexivity |].
  assert (Hact : Ant.act a = a).
  { unfold Ant.act, Ant.QueenAnt_act. rewrite Hq.
    apply needsRest_true in He. rewrite He. reflexivity. }
  rewrite Hact. apply IH; assumption.
Qed.

Lemma queen_below_threshold_stuck_witness :
  (Ant.type (Ant.mk "Queen1" ex_species QUEEN 20 10) = QUEEN /\ 20 < 30)
  /\ Ant.act_n 40 (Ant.mk "Queen1" ex_species QUEEN 20 10)
     = Ant.mk "Queen1" ex_species QUEEN 20 10.
Proof.
  split; [split; [reflexivity | lia] |].
  apply (queen_below_threshold_stuck 40 (Ant.mk "Queen1" ex_species QUEEN 20 10)).
  - reflexivity.
  - simpl. lia.
Defined.

(** X3. The energy of a new queen after [n] calls of [act] is
    [max 20 (100 - 10 n)]: it works eight times and then stays at 20. *)
Theorem new_queen_energy :
  forall (n : nat) (nm : string) (sp : Species),
    Ant.energy (Ant.act_n n (Ant.QueenAnt nm sp))
    = Z.max 20 (100 - 10 * Z.of_nat n).
Proof.
  intros n nm sp.
  rewrite (queen_countdown n (Ant.QueenAnt nm sp)); [reflexivity | reflexivity |].
  exists 8. simpl. lia.
Qed.

(** X4. A drone or warrior whose energy [e] is at least 20 and below 30
    rests once, which takes it to [e + 20], then works twice, which takes it
    to [e + 10] and back to [e]; after these three steps it is exactly the
    object it was.  So from there on its energy runs through
    [e], [e + 20], [e + 10] with period three. *)
Theorem worker_period_three :
  forall (n : nat) (a : Ant.t),
    Ant.type a <> QUEEN -> 20 <= Ant.energy a < 30 ->
    Ant.act_n (3 * n) a = a
    /\ Ant.energy (Ant.act_n (3 * n + 1) a) = Ant.energy a + 20
    /\ Ant.energy (Ant.act_n (3 * n + 2) a) = Ant.energy a + 10.
Proof.
  intros n a Hty He. destruct a as [nm sp ty e c].
  cbn [Ant.type Ant.energy] in *.
  assert (Hstep : forall e',
            Ant.act (Ant.mk nm sp ty e' c)
            = Ant.mk nm sp ty
                (if e' <? 30 then Z.min 100 (e' + 20) else Z.max 0 (e' - 10)) c).
  { intros e'.
    unfold Ant.act, Ant.DroneAnt_act, Ant.WarriorAnt_act, Ant.needsRest,
      Ant.rest, Ant.work, Ant.set_energy.
    cbn [Ant.name Ant.species Ant.type Ant.energy Ant.foodConsumption].
    destruct ty; [| | congruence]; destruct (e' <? 30); reflexivity. }
  assert (H1 : Ant.act (Ant.mk nm sp ty e c) = Ant.mk nm sp ty (e + 20) c).
  { rewrite Hstep. f_equal. destruct (Z.ltb_spec e 30); lia. }
  assert (H2 : Ant.act (Ant.mk nm sp ty (e + 20) c) = Ant.mk nm sp ty (e + 10) c).
  { rewrite Hstep. f_equal. destruct (Z.ltb_spec (e + 20) 30); lia. }
  assert (H3 : Ant.act (Ant.mk nm sp ty (e + 10) c) = Ant.mk nm sp ty e c).
  { rewrite Hstep. f_equal. destruct (Z.ltb_spec (e + 10) 30); lia. }
  assert (Hcycle : Ant.act_n (3 * n) (Ant.mk nm sp ty e c) = Ant.mk nm sp ty e c).
  { induction n as [| n IH]; [reflexivity |].
    replace (3 * S n)%nat with (3 + 3 * n)%nat by lia.
    rewrite act_n_add. cbn [Ant.act_n]. rewrite H1, H2, H3. exact IH. }
  split; [exact Hcycle |].
  rewrite !act_n_add, Hcycle. cbn [Ant.act_n].
  rewrite H1. split; [reflexivity |]. rewrite H2. reflexivity.
Qed.

Lemma worker_period_three_witness :
  (Ant.type (Ant.mk "Drone1" ex_species DRONE 20 10) <> QUEEN /\ 20 <= 20 < 30)
  /\ Ant.act_n 15 (Ant.mk "Drone1" ex_species DRONE 20 10)
     = Ant.mk "Drone1" ex_species DRONE 20 10
  /\ Ant.energy (Ant.act_n 16 (Ant.mk "Drone1" ex_species DRONE 20 10)) = 40
  /\ Ant.energy (Ant.act_n 17 (Ant.mk "Drone1" ex_species DRONE 20 10)) = 30.
Proof.
  split; [split; [discriminate | lia] |].
  apply (worker_period_three 5 (Ant.mk "Drone1" ex_species DRONE 20 10)).
  - discriminate.
  - simpl. lia.
Defined.

(** ** What a tick reads from the store: the consumptions *)

Section RateFacts.

Implicit Types (h : Heap) (f : AntFarm.t) (p q : ptr) (a : Ant.t)
  (l : list ptr) (i : nat).

(** Any view of an ant that [act] leaves alone is left alone by writing the
    result of [act] back. *)
Lemma fmap_store_act {B : Type} (g : Ant.t -> B) h p a :
  (forall x, g (Ant.act x) = g x) ->
  deref h p = Some a ->
  g <$> store h p (Ant.act a) = g <$> h.
Proof.
  intros Hg Hp. destruct p as [i |]; simpl in *; [| discriminate].
  rewrite list_fmap_insert, Hg. apply list_insert_id.
  rewrite list_lookup_fmap, Hp. reflexivity.
Qed.

Lemma fmap_act_all {B : Type} (g : Ant.t -> B) l :
  (forall x, g (Ant.act x) = g x) ->
  forall h, g <$> act_all l h = g <$> h.
Proof.
  intros Hg. induction l as [| p l IH]; intros h; simpl; [reflexivity |].
  destruct (deref h p) as [a |] eqn:Hp; [| apply IH].
  rewrite IH. apply fmap_store_act; assumption.
Qed.

Lemma rates_store_act h p a :
  deref h p = Some a -> rates (store h p (Ant.act a)) = rates h.
Proof. apply fmap_store_act, act_foodConsumption. Qed.

Lemma rates_act_all l h : rates (act_all l h) = rates h.
Proof. apply fmap_act_all, act_foodConsumption. Qed.

Lemma rates_length h h' : rates h' = rates h -> length h' = length h.
Proof.
  unfold rates. intros Heq. apply (f_equal length) in Heq.
  rewrite !length_fmap in Heq. exact Heq.
Qed.

Lemma rate_at_rates h p :
  rate_at h p = match p with
                | None => 0
                | Some i => default 0 (rates h !! i)
                end.
Proof.
  unfold rate_at, rates. destruct p as [i |]; simpl; [| reflexivity].
  rewrite list_lookup_fmap. destruct (h !! i); reflexivity.
Qed.

Lemma rate_at_congr h h' p : rates h' = rates h -> rate_at h' p = rate_at h p.
Proof. intros Heq. rewrite !rate_at_rates, Heq. reflexivity. Qed.

Lemma total_rate_congr h h' l :
  rates h' = rates h -> total_rate h' l = total_rate h l.
Proof.
  intros Heq. induction l as [| p l IH]; simpl; [reflexivity |].
  rewrite IH, (rate_at_congr _ _ _ Heq). reflexivity.
Qed.

Lemma rates_nonneg_congr h h' :
  rates h' = rates h -> rates_nonneg h -> rates_nonneg h'.
Proof.
  unfold rates_nonneg, rates. intros Heq Hr.
  apply (proj1 (Forall_fmap Ant.foodConsumption (fun z => 0 <= z) h')).
  rewrite Heq. apply (proj2 (Forall_fmap Ant.foodConsumption (fun z => 0 <= z) h)).
  exact Hr.
Qed.

Lemma valid_handles_congr h h' l :
  rates h' = rates h -> valid_handles h l -> valid_handles h' l.
Proof. intros Heq. apply valid_handles_length, rates_length, Heq. Qed.

Lemma rate_at_deref h p a : deref h p = Some a -> rate_at h p = Ant.foodConsumption a.
Proof. unfold rate_at. intros ->. reflexivity. Qed.

Lemma rate_at_nonneg h p : rates_nonneg h -> 0 <= rate_at h p.
Proof.
  intros Hr. unfold rate_at. destruct (deref h p) as [a |] eqn:Hp; simpl; [| lia].
  eapply rates_nonneg_deref; eassumption.
Qed.

Lemma total_rate_nonneg h l : rates_nonneg h -> 0 <= total_rate h l.
Proof.
  intros Hr. induction l as [| p l IH]; simpl; [lia |].
  pose proof (rate_at_nonneg h p Hr). lia.
Qed.

(** The loop when the supply covers every member. *)
Lemma tick_loop_all_fed l : forall i h f,
  valid_handles h l ->
  rates_nonneg h ->
  total_rate h l <= AntFarm.foodSupply f ->
  AntFarm.tick_loop i l h f =
    Some (act_all l h,
          AntFarm.set_foodSupply (AntFarm.foodSupply f - total_rate h l) f,
          ok_calls i l).
Proof.
  induction l as [| p l IH]; intros i h f Hv Hr Hcov.
  - simpl. rewrite Z.sub_0_r, set_foodSupply_same. reflexivity.
  - apply Forall_cons in Hv as [[a Hp] Hv].
    change (total_rate h (p :: l)) with (rate_at h p + total_rate h l) in Hcov.
    rewrite (rate_at_deref _ _ _ Hp) in Hcov.
    pose proof (total_rate_nonneg h l Hr) as Hl.
    pose proof (rates_store_act _ _ _ Hp) as Hrates.
    rewrite (tick_loop_cons_ok _ _ _ _ _ _ Hp) by lia.
    rewrite IH.
    + change (total_rate h (p :: l)) with (rate_at h p + total_rate h l).
      cbn [act_all ok_calls]. rewrite Hp, (rate_at_deref _ _ _ Hp).
      rewrite (total_rate_congr _ _ _ Hrates).
      destruct f; unfold AntFarm.set_foodSupply; simpl. do 4 f_equal. lia.
    + eapply valid_handles_congr; eassumption.
    + eapply rates_nonneg_congr; eassumption.
    + rewrite (total_rate_congr _ _ _ Hrates). simpl AntFarm.foodSupply. lia.
Qed.

(** The loop when the supply does not cover every member. *)
Lemma tick_loop_short l : forall i h f,
  valid_handles h l ->
  rates_nonneg h ->
  0 <= AntFarm.foodSupply f ->
  AntFarm.foodSupply f < total_rate h l ->
  exists h' f' tr,
    AntFarm.tick_loop i l h f = Some (h', f', tr)
    /\ AntFarm.isActive f' = false.
Proof.
  induction l as [| p l IH]; intros i h f Hv Hr Hpos Hshort.
  - change (total_rate h []) with 0 in Hshort. lia.
  - apply Forall_cons in Hv as [[a Hp] Hv].
    change (total_rate h (p :: l)) with (rate_at h p + total_rate h l) in Hshort.
    rewrite (rate_at_deref _ _ _ Hp) in Hshort.
    pose proof (rates_store_act _ _ _ Hp) as Hrates.
    destruct (Z_le_gt_dec (Ant.foodConsumption a) (AntFarm.foodSupply f))
      as [Hle | Hgt].
    + rewrite (tick_loop_cons_ok _ _ _ _ _ _ Hp Hle).
      destruct (IH (S i) (store h p (Ant.act a))
                  (AntFarm.set_foodSupply
                     (AntFarm.foodSupply f - Ant.foodConsumption a) f))
        as (h' & f' & tr & -> & Hoff).
      * eapply valid_handles_congr; eassumption.
      * eapply rates_nonneg_congr; eassumption.
      * simpl AntFarm.foodSupply. lia.
      * rewrite (total_rate_congr _ _ _ Hrates). simpl AntFarm.foodSupply. lia.
      * eexists _, _, _. split; [reflexivity | exact Hoff].
    + rewrite (tick_loop_cons_fail _ _ _ _ _ _ Hp) by lia.
      eexists _, _, _. split; reflexivity.
Qed.

End RateFacts.

(** ** Members registered more than once *)

Section AliasFacts.

Implicit Types (h : Heap) (p q : ptr) (a : Ant.t) (l : list ptr).

Lemma act_all_deref l : forall h p a,
  deref h p = Some a ->
  deref (act_all l h) p = Some (Ant.act_n (occurrences p l) a).
Proof.
  induction l as [| q l IH]; intros h p a Hp; simpl; [exact Hp |].
  destruct (deref h q) as [b |] eqn:Hq.
  - destruct (decide (q = p)) as [-> | Hne]; simpl.
    + assert (b = a) by congruence. subst b.
      apply IH. eapply deref_store_eq, Hp.
    + apply IH. rewrite deref_store_ne by exact Hne. exact Hp.
  - destruct (decide (q = p)) as [-> | Hne]; [congruence |].
    simpl. apply IH, Hp.
Qed.

End AliasFacts.

(** X5. In a tick of an active colony with a queen whose member handles are
    all live and whose supply covers the total consumption of its members
    (each position counted), every member acts and eats exactly once, in
    stored order: the calls are those of [ok_calls], and every stored ant
    has had [act] applied once per position its handle holds.  The supply
    left is the initial one less that total; the colony is still active;
    and nothing else in the colony has changed. *)
Theorem tick_all_members_fed :
  forall (h : Heap) (f : AntFarm.t),
    AntFarm.isActive f = true ->
    is_null (AntFarm.queen f) = false ->
    valid_handles h (AntFarm.ants f) ->
    rates_nonneg h ->
    total_rate h (AntFarm.ants f) <= AntFarm.foodSupply f ->
    exists h' f',
      AntFarm.tick h f = Some (h', f', ok_calls 0 (AntFarm.ants f))
      /\ h' = act_all (AntFarm.ants f) h
      /\ (forall p a,
            deref h p = Some a ->
            deref h' p = Some (Ant.act_n (occurrences p (AntFarm.ants f)) a))
      /\ AntFarm.foodSupply f'
         = AntFarm.foodSupply f - total_rate h (AntFarm.ants f)
      /\ AntFarm.isActive f' = true
      /\ f' = AntFarm.mk (AntFarm.name f) (AntFarm.species f) (AntFarm.queen f)
                (AntFarm.ants f) (AntFarm.rooms f)
                (AntFarm.foodSupply f - total_rate h (AntFarm.ants f))
                true.
Proof.
  intros h f Hact Hq Hv Hr Hcov.
  rewrite (tick_guard_open _ _ Hact Hq).
  rewrite (tick_loop_all_fed _ _ _ _ Hv Hr Hcov).
  eexists _, _. split; [reflexivity |]. split; [reflexivity |].
  split; [intros p a Hp; apply act_all_deref, Hp |].
  destruct f as [n sp q l rs food act].
  cbn [AntFarm.isActive] in Hact. subst act.
  repeat split.
Qed.

Lemma ex_heap_rates : rates_nonneg ex_heap.
Proof. repeat constructor; simpl; discriminate. Defined.

Lemma ex_farm_valid : valid_handles ex_heap (AntFarm.ants ex_farm).
Proof. repeat constructor; eexists; reflexivity. Defined.

Lemma tick_all_members_fed_witness :
  (AntFarm.isActive ex_farm = true
   /\ is_null (AntFarm.queen ex_farm) = false
   /\ total_rate ex_heap (AntFarm.ants ex_farm) <= AntFarm.foodSupply ex_farm)
  /\ exists h' f',
       AntFarm.tick ex_heap ex_farm
         = Some (h', f',
                 [EvAct 0 (Some 0%nat); EvConsumeFood 0 (Some 0%nat) true])
       /\ h' = [Ant.mk "Queen1" ex_species QUEEN 90 10;
                Ant.DroneAnt "Drone1" ex_species;
                Ant.WarriorAnt "Warrior1" ex_species]
       /\ AntFarm.foodSupply f' = 990
       /\ AntFarm.isActive f' = true.
Proof.
  split; [repeat split; vm_compute; discriminate |].
  destruct (tick_all_members_fed ex_heap ex_farm)
    as (h' & f' & Hrun & Hheap & _ & Hfood & Hon & _).
  - reflexivity.
  - reflexivity.
  - exact ex_farm_valid.
  - exact ex_heap_rates.
  - vm_compute. discriminate.
  - exists h', f'. split; [exact Hrun |]. split; [exact Hheap |].
    split; [exact Hfood | exact Hon].
Defined.

(** X6. Under the same assumptions on the store and with a supply that is
    not negative, a tick of an active colony with a queen returns, and the
    colony is still alive afterwards exactly when its supply covered the
    total consumption of its members. *)
Theorem tick_survives_iff_supply_covers :
  forall (h : Heap) (f : AntFarm.t),
    AntFarm.isActive f = true ->
    is_null (AntFarm.queen f) = false ->
    valid_handles h (AntFarm.ants f) ->
    rates_nonneg h ->
    0 <= AntFarm.foodSupply f ->
    exists h' f' tr,
      AntFarm.tick h f = Some (h', f', tr)
      /\ (AntFarm.isActiveColony f' = true
          <-> total_rate h (AntFarm.ants f) <= AntFarm.foodSupply f).
Proof.
  intros h f Hact Hq Hv Hr Hpos.
  destruct (Z_le_gt_dec (total_rate h (AntFarm.ants f)) (AntFarm.foodSupply f))
    as [Hcov | Hshort].
  - rewrite (tick_guard_open _ _ Hact Hq).
    rewrite (tick_loop_all_fed _ _ _ _ Hv Hr Hcov).
    eexists _, _, _. split; [reflexivity |].
    unfold AntFarm.isActiveColony. simpl. rewrite Hact, Hq. simpl. tauto.
  - rewrite (tick_guard_open _ _ Hact Hq).
    destruct (tick_loop_short (AntFarm.ants f) 0 h f Hv Hr Hpos)
      as (h' & f' & tr & Hrun & Hoff); [lia |].
    exists h', f', tr. split; [exact Hrun |].
    unfold AntFarm.isActiveColony. rewrite Hoff. simpl. split; [discriminate | lia].
Qed.

Lemma tick_survives_iff_supply_covers_witness :
  (AntFarm.isActive short_farm = true
   /\ is_null (AntFarm.queen short_farm) = false
   /\ 0 <= AntFarm.foodSupply short_farm)
  /\ exists h' f' tr,
       AntFarm.tick short_heap short_farm = Some (h', f', tr)
       /\ (AntFarm.isActiveColony f' = true
           <-> total_rate short_heap (AntFarm.ants short_farm)
               <= AntFarm.foodSupply short_farm).
Proof.
  split; [repeat split; vm_compute; discriminate |].
  apply (tick_survives_iff_supply_covers short_heap short_farm).
  - reflexivity.
  - reflexivity.
  - exact short_heap_valid.
  - exact short_heap_rates.
  - simpl. lia.
Defined.

(** ** A colony over several ticks *)

Section LifetimeFacts.

Implicit Types (h : Heap) (f : AntFarm.t) (p q : ptr) (l : list ptr)
  (tr : list Event) (n m : nat).

Lemma tick_n_compose n : forall m h f h1 f1 tr1 h2 f2 tr2,
  AntFarm.tick_n n h f = Some (h1, f1, tr1) ->
  AntFarm.tick_n m h1 f1 = Some (h2, f2, tr2) ->
  AntFarm.tick_n (n + m) h f = Some (h2, f2, tr1 ++ tr2).
Proof.
  induction n as [| n IH]; intros m h f h1 f1 tr1 h2 f2 tr2 Hn Hm; simpl in *.
  - injection Hn as <- <- <-. exact Hm.
  - destruct (AntFarm.tick h f) as [[[h0 f0] tr0] |]; [| discriminate].
    destruct (AntFarm.tick_n n h0 f0) as [[[h' f'] tr'] |] eqn:Hrec; [| discriminate].
    injection Hn as <- <- <-.
    rewrite (IH _ _ _ _ _ _ _ _ _ Hrec Hm), app_assoc. reflexivity.
Qed.

Lemma tick_n_closed n h f :
  AntFarm.isActive f = false \/ is_null (AntFarm.queen f) = true ->
  AntFarm.tick_n n h f = Some (h, f, []).
Proof.
  intros Hoff. induction n as [| n IH]; simpl; [reflexivity |].
  rewrite (tick_guard_closed h f Hoff), IH. reflexivity.
Qed.

Lemma set_foodSupply_twice x y f :
  AntFarm.set_foodSupply x (AntFarm.set_foodSupply y f) = AntFarm.set_foodSupply x f.
Proof. reflexivity. Qed.

(** As long as the supply covers [n] full rounds the colony pays [n] times
    the total consumption of its members and nothing else changes in it. *)
Lemma tick_n_fed n : forall h f,
  AntFarm.isActive f = true ->
  is_null (AntFarm.queen f) = false ->
  valid_handles h (AntFarm.ants f) ->
  rates_nonneg h ->
  Z.of_nat n * total_rate h (AntFarm.ants f) <= AntFarm.foodSupply f ->
  exists h' tr,
    AntFarm.tick_n n h f =
      Some (h',
            AntFarm.set_foodSupply
              (AntFarm.foodSupply f
                 - Z.of_nat n * total_rate h (AntFarm.ants f)) f,
            tr)
    /\ rates h' = rates h.
Proof.
  induction n as [| n IH]; intros h f Hact Hq Hv Hr Hcov.
  - exists h, []. simpl. rewrite Z.sub_0_r, set_foodSupply_same.
    split; reflexivity.
  - pose proof (total_rate_nonneg h (AntFarm.ants f) Hr) as HR.
    set (R := total_rate h (AntFarm.ants f)) in *.
    assert (Hone : R <= AntFarm.foodSupply f) by nia.
    pose proof (tick_loop_all_fed _ 0 _ _ Hv Hr Hone) as Htick.
    rewrite <- (tick_guard_open _ _ Hact Hq) in Htick. fold R in Htick.
    pose proof (rates_act_all (AntFarm.ants f) h) as Hrates.
    destruct (IH (act_all (AntFarm.ants f) h)
                (AntFarm.set_foodSupply (AntFarm.foodSupply f - R) f))
      as (h' & tr & Hrun & Hrates').
    + exact Hact.
    + exact Hq.
    + eapply valid_handles_congr; eassumption.
    + eapply rates_nonneg_congr; eassumption.
    + simpl AntFarm.ants. simpl AntFarm.foodSupply.
      rewrite (total_rate_congr _ _ _ Hrates). fold R. lia.
    + exists h', (ok_calls 0 (AntFarm.ants f) ++ tr).
      split; [| congruence].
      cbn [AntFarm.tick_n]. rewrite Htick, Hrun.
      simpl AntFarm.ants. simpl AntFarm.foodSupply.
      rewrite (total_rate_congr _ _ _ Hrates). fold R.
      rewrite set_foodSupply_twice. do 4 f_equal. lia.
Qed.

End LifetimeFacts.

(** X7. The lifetime of a colony.  Take an active colony with a queen, live
    member handles, no negative consumption in the store, a supply [S] that
    is not negative and members whose total consumption per tick [R] is
    positive.  Then any number [n] of ticks returns; the colony is still
    alive after them exactly when [n <= S / R] (integer division), and up to
    then its supply is [S - n * R].  So it dies at tick [S / R + 1]. *)
Theorem colony_lifetime :
  forall (n : nat) (h : Heap) (f : AntFarm.t),
    AntFarm.isActive f = true ->
    is_null (AntFarm.queen f) = false ->
    valid_handles h (AntFarm.ants f) ->
    rates_nonneg h ->
    0 <= AntFarm.foodSupply f ->
    0 < total_rate h (AntFarm.ants f) ->
    exists h' f' tr,
      AntFarm.tick_n n h f = Some (h', f', tr)
      /\ (AntFarm.isActiveColony f' = true
          <-> Z.of_nat n <= AntFarm.foodSupply f / total_rate h (AntFarm.ants f))
      /\ (Z.of_nat n <= AntFarm.foodSupply f / total_rate h (AntFarm.ants f) ->
          AntFarm.foodSupply f'
          = AntFarm.foodSupply f - Z.of_nat n * total_rate h (AntFarm.ants f)).
Proof.
  intros n h f Hact Hq Hv Hr Hpos HR.
  set (R := total_rate h (AntFarm.ants f)) in *.
  set (S0 := AntFarm.foodSupply f) in *.
  assert (HT : 0 <= S0 / R) by (apply Z.div_pos; lia).
  pose proof (Z.mul_div_le S0 R HR) as Hlow.
  pose proof (Z.mul_succ_div_gt S0 R HR) as Hhigh.
  destruct (Z_le_gt_dec (Z.of_nat n) (S0 / R)) as [Hle | Hgt].
  - destruct (tick_n_fed n h f Hact Hq Hv Hr) as (h' & tr & Hrun & _).
    { fold R S0. nia. }
    fold R S0 in Hrun. eexists _, _, _. split; [exact Hrun |].
    split.
    + unfold AntFarm.isActiveColony. simpl. rewrite Hact, Hq. simpl. tauto.
    + intros _. reflexivity.
  - set (t := Z.to_nat (S0 / R)).
    assert (Ht : Z.of_nat t = S0 / R) by (apply Z2Nat.id; exact HT).
    destruct (tick_n_fed t h f Hact Hq Hv Hr) as (ht & trt & Hrun & Hrates).
    { fold R S0. rewrite Ht. lia. }
    fold R S0 in Hrun. rewrite Ht in Hrun.
    set (ft := AntFarm.set_foodSupply (S0 - S0 / R * R) f) in *.
    destruct (tick_loop_short (AntFarm.ants ft) 0 ht ft)
      as (h1 & f1 & tr1 & Hlast & Hoff).
    { eapply valid_handles_congr; eassumption. }
    { eapply rates_nonneg_congr; eassumption. }
    { simpl. lia. }
    { simpl AntFarm.ants. simpl AntFarm.foodSupply.
      rewrite (total_rate_congr _ _ _ Hrates). fold R. lia. }
    rewrite <- (tick_guard_open ht ft Hact Hq) in Hlast.
    assert (Hsplit : exists m, n = (t + S m)%nat) by (exists (n - t - 1)%nat; lia).
    destruct Hsplit as [m ->].
    assert (Hrest : AntFarm.tick_n (S m) ht ft = Some (h1, f1, tr1 ++ [])).
    { cbn [AntFarm.tick_n]. rewrite Hlast.
      rewrite (tick_n_closed _ h1 f1 (or_introl Hoff)). reflexivity. }
    rewrite (tick_n_compose _ _ _ _ _ _ _ _ _ _ Hrun Hrest).
    eexists _, _, _. split; [reflexivity |].
    unfold AntFarm.isActiveColony. rewrite Hoff. simpl.
    split; [split; [discriminate | lia] | lia].
Qed.

Lemma colony_lifetime_witness :
  (AntFarm.isActive ex_farm = true
   /\ is_null (AntFarm.queen ex_farm) = false
   /\ 0 <= AntFarm.foodSupply ex_farm
   /\ 0 < total_rate ex_heap (AntFarm.ants ex_farm))
  /\ exists h' f' tr,
       AntFarm.tick_n 101 ex_heap ex_farm = Some (h', f', tr)
       /\ (AntFarm.isActiveColony f' = true
           <-> Z.of_nat 101
               <= AntFarm.foodSupply ex_farm
                  / total_rate ex_heap (AntFarm.ants ex_farm))
       /\ (Z.of_nat 101
           <= AntFarm.foodSupply ex_farm
              / total_rate ex_heap (AntFarm.ants ex_farm) ->
           AntFarm.foodSupply f'
           = AntFarm.foodSupply ex_farm
             - Z.of_nat 101 * total_rate ex_heap (AntFarm.ants ex_farm)).
Proof.
  split; [repeat split; vm_compute; first [reflexivity | discriminate] |].
  apply (colony_lifetime 101 ex_heap ex_farm).
  - reflexivity.
  - reflexivity.
  - exact ex_farm_valid.
  - exact ex_heap_rates.
  - vm_compute. discriminate.
  - vm_compute. reflexivity.
Defined.

(** ** What a tick can and cannot change *)

Section FootprintFacts.

Implicit Types (h : Heap) (f : AntFarm.t) (p q : ptr) (a : Ant.t)
  (l : list ptr) (tr : list Event) (i : nat).

(** The store a run of the loop returns is the initial one with [act]
    applied along a prefix of the handles. *)
Lemma tick_loop_store_prefix l i h f h' f' tr :
  AntFarm.tick_loop i l h f = Some (h', f', tr) ->
  exists m, h' = act_all (take m l) h.
Proof.
  intros Hrun.
  apply tick_loop_shape in Hrun
    as [(_ & -> & _) | (k & p & a & Hk & _ & Hp & -> & _)].
  - exists (length l). rewrite take_ge by lia. reflexivity.
  - exists (S k). symmetry. apply act_all_take_S; assumption.
Qed.

Lemma tick_store_prefix h f h' f' tr :
  AntFarm.tick h f = Some (h', f', tr) ->
  exists m, h' = act_all (take m (AntFarm.ants f)) h.
Proof.
  unfold AntFarm.tick.
  destruct (negb (AntFarm.isActive f) || is_null (AntFarm.queen f)).
  - intros [= <- <- <-]. exists 0%nat. reflexivity.
  - apply tick_loop_store_prefix.
Qed.


Lemma set_energy_act x : Ant.set_energy 0 (Ant.act x) = Ant.set_energy 0 x.
Proof. rewrite act_frame. reflexivity. Qed.

Lemma deref_rates h1 h2 p a1 :
  rates h1 = rates h2 -> deref h1 p = Some a1 ->
  exists a2, deref h2 p = Some a2
             /\ Ant.foodConsumption a2 = Ant.foodConsumption a1.
Proof.
  intros Heq Hp. destruct p as [i |]; simpl in *; [| discriminate].
  assert (Hi : rates h1 !! i = Some (Ant.foodConsumption a1)).
  { unfold rates. rewrite list_lookup_fmap, Hp. reflexivity. }
  rewrite Heq in Hi. unfold rates in Hi. rewrite list_lookup_fmap in Hi.
  destruct (h2 !! i) as [a2 |]; [| discriminate].
  exists a2. split; [reflexivity |]. simpl in Hi. congruence.
Qed.

Lemma deref_rates_None h1 h2 p :
  rates h1 = rates h2 -> deref h1 p = None -> deref h2 p = None.
Proof.
  intros Heq Hp. destruct (deref h2 p) as [a2 |] eqn:Hp2; [| reflexivity].
  destruct (deref_rates h2 h1 p a2 (eq_sym Heq) Hp2) as (a1 & Ha1 & _).
  congruence.
Qed.

Lemma consumeFood_congr a1 a2 pool :
  Ant.foodConsumption a2 = Ant.foodConsumption a1 ->
  Ant.consumeFood a2 pool = Ant.consumeFood a1 pool.
Proof. unfold Ant.consumeFood. intros ->. reflexivity. Qed.

(** Two stores with the same consumptions drive the loop the same way. *)
Lemma tick_loop_rates_congr l : forall i h1 h2 f,
  rates h1 = rates h2 ->
  (fun r => (snd (fst r), snd r)) <$> AntFarm.tick_loop i l h1 f
  = (fun r => (snd (fst r), snd r)) <$> AntFarm.tick_loop i l h2 f.
Proof.
  induction l as [| p l IH]; intros i h1 h2 f Heq; [reflexivity |].
  cbn [AntFarm.tick_loop].
  destruct (deref h1 p) as [a1 |] eqn:Hp1.
  - destruct (deref_rates _ _ _ _ Heq Hp1) as (a2 & Hp2 & Hc). rewrite Hp2.
    assert (Hc' : Ant.foodConsumption (Ant.act a2) = Ant.foodConsumption (Ant.act a1)).
    { rewrite !act_foodConsumption. exact Hc. }
    rewrite (consumeFood_congr _ _ _ Hc').
    destruct (Ant.consumeFood (Ant.act a1) (AntFarm.foodSupply f)) as [ok food].
    destruct ok; simpl negb; cbv iota; [| reflexivity].
    assert (Heq' : rates (store h1 p (Ant.act a1)) = rates (store h2 p (Ant.act a2))).
    { rewrite (rates_store_act _ _ _ Hp1), (rates_store_act _ _ _ Hp2). exact Heq. }
    specialize (IH (S i) _ _ (AntFarm.set_foodSupply food f) Heq').
    destruct (AntFarm.tick_loop (S i) l (store h1 p (Ant.act a1)) _)
      as [[[h1' f1'] tr1] |];
      destruct (AntFarm.tick_loop (S i) l (store h2 p (Ant.act a2)) _)
      as [[[h2' f2'] tr2] |]; simpl in IH |- *; congruence.
  - rewrite (deref_rates_None _ _ _ Heq Hp1). reflexivity.
Qed.

End FootprintFacts.

(** X8. The footprint of a tick.  Whenever a tick returns, the colony's
    name, species, queen, member list and room list are unchanged; every
    stored ant is unchanged except possibly in its energy; and an ant whose
    handle is not a member of the colony is not changed at all. *)
Theorem tick_footprint :
  forall (h h' : Heap) (f f' : AntFarm.t) (tr : list Event),
    AntFarm.tick h f = Some (h', f', tr) ->
    (AntFarm.name f' = AntFarm.name f
     /\ AntFarm.species f' = AntFarm.species f
     /\ AntFarm.queen f' = AntFarm.queen f
     /\ AntFarm.ants f' = AntFarm.ants f
     /\ AntFarm.rooms f' = AntFarm.rooms f)
    /\ (Ant.set_energy 0 <$> h') = (Ant.set_energy 0 <$> h)
    /\ (forall q, q ∉ AntFarm.ants f -> deref h' q = deref h q).
Proof.
  intros h h' f f' tr Hrun.
  destruct (tick_store_prefix _ _ _ _ _ Hrun) as [m Hm].
  split; [| split].
  - unfold AntFarm.tick in Hrun.
    destruct (negb (AntFarm.isActive f) || is_null (AntFarm.queen f)).
    + injection Hrun as <- <- <-. repeat split.
    + eapply tick_loop_frame, Hrun.
  - rewrite Hm. apply fmap_act_all, set_energy_act.
  - intros q Hq. rewrite Hm. apply act_all_other.
    intros Hin. apply Hq. eapply subseteq_take, Hin.
Qed.

Lemma tick_footprint_witness :
  AntFarm.tick ex_heap ex_farm
    = Some ([Ant.mk "Queen1" ex_species QUEEN 90 10;
             Ant.DroneAnt "Drone1" ex_species;
             Ant.WarriorAnt "Warrior1" ex_species],
            AntFarm.set_foodSupply 990 ex_farm,
            [EvAct 0 (Some 0%nat); EvConsumeFood 0 (Some 0%nat) true])
  /\ deref [Ant.mk "Queen1" ex_species QUEEN 90 10;
            Ant.DroneAnt "Drone1" ex_species;
            Ant.WarriorAnt "Warrior1" ex_species] (Some 1%nat)
     = deref ex_heap (Some 1%nat).
Proof.
  split; [reflexivity |].
  pose proof (tick_footprint ex_heap _ ex_farm _ _
                (eq_refl : AntFarm.tick ex_heap ex_farm
                   = Some ([Ant.mk "Queen1" ex_species QUEEN 90 10;
                            Ant.DroneAnt "Drone1" ex_species;
                            Ant.WarriorAnt "Warrior1" ex_species],
                           AntFarm.set_foodSupply 990 ex_farm,
                           [EvAct 0 (Some 0%nat);
                            EvConsumeFood 0 (Some 0%nat) true])))
    as (_ & _ & Hother).
  apply Hother. simpl. intros Hin.
  apply elem_of_cons in Hin as [Heq | Hin]; [discriminate |].
  apply elem_of_nil in Hin. exact Hin.
Defined.

(** X9. A tick never revives a colony: if the colony is alive after it, it
    was alive before.  And the active flag goes from true to false in a tick
    exactly when that tick made a call of [consumeFood] that returned
    false. *)
Theorem tick_flag_follows_failed_withdrawal :
  forall (h h' : Heap) (f f' : AntFarm.t) (tr : list Event),
    AntFarm.tick h f = Some (h', f', tr) ->
    (AntFarm.isActiveColony f' = true -> AntFarm.isActiveColony f = true)
    /\ (AntFarm.isActive f = true /\ AntFarm.isActive f' = false
        <-> exists i p, EvConsumeFood i p false ∈ tr).
Proof.
  intros h h' f f' tr Hrun. unfold AntFarm.tick in Hrun.
  destruct (AntFarm.isActive f) eqn:Hact;
    [destruct (is_null (AntFarm.queen f)) eqn:Hq |]; simpl in Hrun.
  - injection Hrun as <- <- <-. split; [tauto |].
    split; [intros [_ Hoff]; congruence |].
    intros (i & p & Hin). apply elem_of_nil in Hin. contradiction.
  - pose proof (tick_loop_frame _ _ _ _ _ _ _ Hrun) as (_ & _ & Hq' & _).
    apply tick_loop_shape in Hrun
      as [(-> & _ & Hsame) | (k & p & a & Hk & -> & _ & _ & Hoff)].
    + split.
      * unfold AntFarm.isActiveColony. rewrite Hact, Hq. reflexivity.
      * split; [intros [_ Hoff]; congruence |].
        intros (i & p & Hin). exfalso. exact (ok_calls_no_failure _ _ _ _ Hin).
    + split.
      * unfold AntFarm.isActiveColony. rewrite Hoff. discriminate.
      * split; [| intros _; split; [reflexivity | exact Hoff]].
        intros _. exists (0 + k)%nat, p. apply elem_of_app. right.
        apply list_elem_of_further, list_elem_of_here.
  - injection Hrun as <- <- <-. split.
    + unfold AntFarm.isActiveColony. rewrite Hact. discriminate.
    + split; [intros [Hon _]; congruence |].
      intros (i & p & Hin). apply elem_of_nil in Hin. contradiction.
Qed.

Lemma tick_flag_follows_failed_withdrawal_witness :
  AntFarm.tick short_heap short_farm
    = Some ([Ant.mk "Queen1" ex_species QUEEN 20 10;
             Ant.mk "Drone1" ex_species DRONE 90 10;
             Ant.mk "Warrior1" ex_species WARRIOR 90 10],
            AntFarm.set_isActive false (AntFarm.set_foodSupply 0 short_farm),
            [EvAct 0 (Some 0%nat); EvConsumeFood 0 (Some 0%nat) true;
             EvAct 1 (Some 1%nat); EvConsumeFood 1 (Some 1%nat) true;
             EvAct 2 (Some 2%nat); EvConsumeFood 2 (Some 2%nat) false])
  /\ exists i p,
       EvConsumeFood i p false
       ∈ [EvAct 0 (Some 0%nat); EvConsumeFood 0 (Some 0%nat) true;
          EvAct 1 (Some 1%nat); EvConsumeFood 1 (Some 1%nat) true;
          EvAct 2 (Some 2%nat); EvConsumeFood 2 (Some 2%nat) false].
Proof.
  split; [reflexivity |].
  apply (tick_flag_follows_failed_withdrawal short_heap _ short_farm _ _
           (eq_refl : AntFarm.tick short_heap short_farm
              = Some ([Ant.mk "Queen1" ex_species QUEEN 20 10;
                       Ant.mk "Drone1" ex_species DRONE 90 10;
                       Ant.mk "Warrior1" ex_species WARRIOR 90 10],
                      AntFarm.set_isActive false
                        (AntFarm.set_foodSupply 0 short_farm),
                      [EvAct 0 (Some 0%nat); EvConsumeFood 0 (Some 0%nat) true;
                       EvAct 1 (Some 1%nat); EvConsumeFood 1 (Some 1%nat) true;
                       EvAct 2 (Some 2%nat); EvConsumeFood 2 (Some 2%nat) false]))).
  split; reflexivity.
Defined.

(** X10. The colony a tick leaves and the calls it makes depend on the store
    only through the ants' food consumptions: two stores that agree on them
    (whatever the energies, names, species and kinds) give the same colony
    and the same calls, or are both undefined. *)
Theorem tick_outcome_independent_of_energy :
  forall (h1 h2 : Heap) (f : AntFarm.t),
    rates h1 = rates h2 ->
    outcome <$> AntFarm.tick h1 f = outcome <$> AntFarm.tick h2 f.
Proof.
  intros h1 h2 f Heq. unfold AntFarm.tick.
  destruct (negb (AntFarm.isActive f) || is_null (AntFarm.queen f));
    [reflexivity |].
  apply (tick_loop_rates_congr (AntFarm.ants f) 0 h1 h2 f Heq).
Qed.

Lemma tick_outcome_independent_of_energy_witness :
  rates ex_heap = rates short_heap
  /\ outcome <$> AntFarm.tick ex_heap short_farm
     = outcome <$> AntFarm.tick short_heap short_farm.
Proof.
  split; [reflexivity |].
  apply (tick_outcome_independent_of_energy ex_heap short_heap short_farm).
  reflexivity.
Defined.

(** ** A tick of the whole meadow *)

Section MeadowFacts.

Implicit Types (h : Heap) (f : AntFarm.t) (m : Meadow.t) (l : list AntFarm.t).


Lemma tick_never_revives h f h' f' tr :
  AntFarm.tick h f = Some (h', f', tr) ->
  AntFarm.isActiveColony f' = true -> AntFarm.isActiveColony f = true.
Proof.
  unfold AntFarm.tick.
  destruct (negb (AntFarm.isActive f) || is_null (AntFarm.queen f)) eqn:Hg.
  - intros [= <- <- <-]. tauto.
  - intros _ _. unfold AntFarm.isActiveColony.
    destruct (AntFarm.isActive f), (is_null (AntFarm.queen f));
      simpl in *; congruence.
Qed.

Lemma count_if_app {A : Type} (pred : A -> bool) (l1 l2 : list A) :
  Meadow.count_if pred (l1 ++ l2)
  = Meadow.count_if pred l1 + Meadow.count_if pred l2.
Proof.
  induction l1 as [| x l1 IH]; simpl; [reflexivity |]. rewrite IH. lia.
Qed.


Lemma tick_farms_count l : forall h h' l',
  Meadow.tick_farms l h = Some (h', l') ->
  Meadow.count_if AntFarm.isActiveColony l'
  <= Meadow.count_if AntFarm.isActiveColony l.
Proof.
  induction l as [| f l IH]; intros h h' l' Hrun; simpl in Hrun.
  - injection Hrun as <- <-. simpl. lia.
  - destruct (AntFarm.tick h f) as [[[h1 f1] tr1] |] eqn:Htick; [| discriminate].
    destruct (Meadow.tick_farms l h1) as [[h2 fs] |] eqn:Hrec; [| discriminate].
    injection Hrun as <- <-. simpl.
    pose proof (IH _ _ _ Hrec) as Hle.
    pose proof (tick_never_revives _ _ _ _ _ Htick) as Hrev.
    destruct (AntFarm.isActiveColony f1), (AntFarm.isActiveColony f);
      try lia; specialize (Hrev eq_refl); discriminate.
Qed.

Lemma tick_farms_total l : forall h,
  Forall (fun f => valid_handles h (AntFarm.ants f)) l ->
  exists h' l',
    Meadow.tick_farms l h = Some (h', l')
    /\ length h' = length h
    /\ Forall (fun f => valid_handles h' (AntFarm.ants f)) l'.
Proof.
  induction l as [| f l IH]; intros h Hv; simpl.
  - exists h, []. split; [reflexivity |]. split; [reflexivity | constructor].
  - apply Forall_cons in Hv as [Hf Hl].
    assert (Htick : exists h1 f1 tr1,
               AntFarm.tick h f = Some (h1, f1, tr1)
               /\ length h1 = length h /\ AntFarm.ants f1 = AntFarm.ants f).
    { unfold AntFarm.tick.
      destruct (negb (AntFarm.isActive f) || is_null (AntFarm.queen f)).
      - exists h, f, []. repeat split.
      - destruct (tick_loop_total (AntFarm.ants f) 0 h f Hf) as [[[h1 f1] tr1] Hrun].
        exists h1, f1, tr1. split; [exact Hrun |].
        destruct (tick_loop_store_prefix _ _ _ _ _ _ _ Hrun) as [k ->].
        split; [apply rates_length, rates_act_all |].
        eapply tick_loop_frame, Hrun. }
    destruct Htick as (h1 & f1 & tr1 & -> & Hlen1 & Hants).
    destruct (IH h1) as (h2 & fs & -> & Hlen2 & Hfs).
    { eapply Forall_impl; [exact Hl |]. simpl. intros g.
      apply valid_handles_length, Hlen1. }
    exists h2, (f1 :: fs). split; [reflexivity |]. split; [congruence |].
    constructor; [| exact Hfs].
    rewrite Hants. eapply valid_handles_length; [| exact Hf]. congruence.
Qed.

Lemma meadow_tick_total_local h m :
  Forall (fun f => valid_handles h (AntFarm.ants f)) (Meadow.farms m) ->
  exists h' m',
    Meadow.tick h m = Some (h', m')
    /\ length (Meadow.farms m') = length (Meadow.farms m)
    /\ length h' = length h
    /\ Forall (fun f => valid_handles h' (AntFarm.ants f)) (Meadow.farms m').
Proof.
  intros Hv. unfold Meadow.tick.
  destruct (tick_farms_total _ _ Hv) as (h' & fs & Hrun & Hlen & Hfs).
  rewrite Hrun. eexists _, _. split; [reflexivity |]. simpl.
  split; [eapply tick_farms_length, Hrun |]. split; assumption.
Qed.

End MeadowFacts.


(** X12. A tick of the meadow never raises the number of living colonies;
    hence once [simulationComplete] holds it keeps holding after every
    further tick. *)
Theorem meadow_tick_keeps_complete :
  forall (h h' : Heap) (m m' : Meadow.t),
    Meadow.tick h m = Some (h', m') ->
    Meadow.count_if AntFarm.isActiveColony (Meadow.farms m')
    <= Meadow.count_if AntFarm.isActiveColony (Meadow.farms m)
    /\ (Meadow.simulationComplete m = true -> Meadow.simulationComplete m' = true).
Proof.
  intros h h' m m' Hrun. unfold Meadow.tick in Hrun.
  destruct (Meadow.tick_farms (Meadow.farms m) h) as [[h1 fs] |] eqn:Hfs;
    [| discriminate].
  injection Hrun as <- <-. simpl.
  pose proof (tick_farms_count _ _ _ _ Hfs) as Hle.
  split; [exact Hle |].
  unfold Meadow.simulationComplete. simpl. rewrite !Z.leb_le. lia.
Qed.

(** X13. [createAntFarm] returns the position of the new colony, which is a
    freshly constructed one; the colonies already there and the species are
    kept; and since the new colony has no queen yet it does not count as
    alive, so [simulationComplete] gives the same answer as before. *)
Theorem createAntFarm_adds_queenless_colony :
  forall (n : string) (sp : Species) (m : Meadow.t),
    Meadow.farms (fst (Meadow.createAntFarm n sp m))
      !! snd (Meadow.createAntFarm n sp m) = Some (AntFarm.new n sp)
    /\ take (length (Meadow.farms m))
         (Meadow.farms (fst (Meadow.createAntFarm n sp m))) = Meadow.farms m
    /\ length (Meadow.farms (fst (Meadow.createAntFarm n sp m)))
       = S (length (Meadow.farms m))
    /\ Meadow.species (fst (Meadow.createAntFarm n sp m)) = Meadow.species m
    /\ Meadow.simulationComplete (fst (Meadow.createAntFarm n sp m))
       = Meadow.simulationComplete m.
Proof.
  intros n sp m. simpl. repeat split.
  - apply list_lookup_middle. reflexivity.
  - apply take_app_length.
  - rewrite length_app. simpl. lia.
  - unfold Meadow.simulationComplete. simpl.
    rewrite count_if_app. simpl. rewrite Z.add_0_r. reflexivity.
Qed.

(** X14. If every member handle of every colony is live, a tick of the
    meadow returns; it keeps the number of colonies and of stored ants, and
    every member handle is still live afterwards. *)
Theorem meadow_tick_total :
  forall (h : Heap) (m : Meadow.t),
    Forall (fun f => valid_handles h (AntFarm.ants f)) (Meadow.farms m) ->
    exists h' m',
      Meadow.tick h m = Some (h', m')
      /\ length (Meadow.farms m') = length (Meadow.farms m)
      /\ length h' = length h
      /\ Forall (fun f => valid_handles h' (AntFarm.ants f)) (Meadow.farms m').
Proof.
  intros h m Hv. unfold Meadow.tick.
  destruct (tick_farms_total _ _ Hv) as (h' & fs & Hrun & Hlen & Hfs).
  rewrite Hrun. eexists _, _. split; [reflexivity |]. simpl.
  split; [eapply tick_farms_length, Hrun |]. split; assumption.
Qed.

Lemma ex_meadow_valid :
  Forall (fun f => valid_handles short_heap (AntFarm.ants f)) (Meadow.farms ex_meadow).
Proof. repeat constructor; eexists; reflexivity. Defined.


Lemma meadow_tick_keeps_complete_witness :
  exists h' m',
    Meadow.tick short_heap ex_meadow = Some (h', m')
    /\ Meadow.count_if AntFarm.isActiveColony (Meadow.farms m')
       <= Meadow.count_if AntFarm.isActiveColony (Meadow.farms ex_meadow)
    /\ (Meadow.simulationComplete ex_meadow = true ->
        Meadow.simulationComplete m' = true).
Proof.
  destruct (Meadow.tick short_heap ex_meadow) as [[h' m'] |] eqn:Hrun;
    [| vm_compute in Hrun; discriminate].
  exists h', m'. split; [reflexivity |].
  apply (meadow_tick_keeps_complete short_heap h' ex_meadow m' Hrun).
Defined.

Lemma meadow_tick_total_witness :
  Forall (fun f => valid_handles short_heap (AntFarm.ants f)) (Meadow.farms ex_meadow)
  /\ exists h' m',
       Meadow.tick short_heap ex_meadow = Some (h', m')
       /\ length (Meadow.farms m') = length (Meadow.farms ex_meadow)
       /\ length h' = length short_heap
       /\ Forall (fun f => valid_handles h' (AntFarm.ants f)) (Meadow.farms m').
Proof.
  split; [exact ex_meadow_valid |].
  apply (meadow_tick_total short_heap ex_meadow). exact ex_meadow_valid.
Defined.

(** ** Rooms *)

Section RoomFacts.

Implicit Types (r : Room.t) (ps : list ptr) (w : Z).

(** The general form: a room takes ants for as long as it holds fewer than
    its capacity read as a [size_t]. *)
Lemma addAnt_all_ants w ps : forall r,
  Room.ants (Room.addAnt_all w ps r)
  = Room.ants r
    ++ take (Z.to_nat (Room.capacity r mod 2 ^ w) - length (Room.ants r)) ps.
Proof.
  induction ps as [| p ps IH]; intros r; simpl.
  - rewrite take_nil, app_nil_r. reflexivity.
  - rewrite IH. unfold Room.addAnt, Room.canAcceptMoreAnts.
    destruct (Z.ltb_spec (Z.of_nat (length (Room.ants r)))
                (Room.capacity r mod 2 ^ w)) as [Hlt | Hge]; simpl.
    + rewrite length_app. simpl.
      replace (Z.to_nat (Room.capacity r mod 2 ^ w) - length (Room.ants r))%nat
        with (S (Z.to_nat (Room.capacity r mod 2 ^ w)
                   - (length (Room.ants r) + 1)))%nat by lia.
      simpl. rewrite <- app_assoc. reflexivity.
    + replace (Z.to_nat (Room.capacity r mod 2 ^ w) - length (Room.ants r))%nat
        with 0%nat by lia.
      reflexivity.
Qed.

Lemma addAnt_all_capacity w ps : forall r,
  Room.capacity (Room.addAnt_all w ps r) = Room.capacity r.
Proof.
  induction ps as [| p ps IH]; intros r; simpl; [reflexivity |].
  rewrite IH. unfold Room.addAnt. destruct (Room.canAcceptMoreAnts w r); reflexivity.
Qed.

End RoomFacts.

(** X15. A room built with a capacity [c] that is not negative keeps exactly
    the first [c] ants it is offered, in the order offered, and silently
    drops every later one; so it never holds more than [c] ants, and with
    capacity 0 it stays empty.  ([w] is the width of [size_t].) *)
Theorem room_keeps_first_capacity_ants :
  forall (w c : Z) (n : string) (ty : Room.RoomType) (ps : list ptr),
    0 <= c < 2 ^ w ->
    Room.ants (Room.addAnt_all w ps (Room.new n ty c)) = take (Z.to_nat c) ps
    /\ Z.of_nat (length (Room.ants (Room.addAnt_all w ps (Room.new n ty c)))) <= c.
Proof.
  intros w c n ty ps Hc.
  assert (Heq : Room.ants (Room.addAnt_all w ps (Room.new n ty c))
                = take (Z.to_nat c) ps).
  { rewrite addAnt_all_ants. simpl.
    rewrite Z.mod_small by exact Hc. rewrite Nat.sub_0_r. reflexivity. }
  split; [exact Heq |].
  rewrite Heq, length_take. lia.
Qed.

Lemma room_keeps_first_capacity_ants_witness :
  0 <= 2 < 2 ^ 64
  /\ Room.ants (Room.addAnt_all 64 [Some 0%nat; Some 1%nat; Some 2%nat]
                  (Room.new "Rest" Room.RESTING 2))
     = [Some 0%nat; Some 1%nat].
Proof.
  split; [split; [lia | reflexivity] |].
  apply (room_keeps_first_capacity_ants 64 2 "Rest" Room.RESTING
           [Some 0%nat; Some 1%nat; Some 2%nat]).
  split; [lia | reflexivity].
Defined.

(** X16. A room built with a negative capacity [c] is not closed but open:
    the comparison [ants.size() < capacity] is made in [size_t], where [c]
    reads as [2 ^ w + c], so the room accepts every ant offered as long as
    it holds fewer than [2 ^ w + c] of them. *)
Theorem room_negative_capacity_accepts :
  forall (w c : Z) (n : string) (ty : Room.RoomType) (ps : list ptr),
    - 2 ^ w < c < 0 ->
    Z.of_nat (length ps) <= 2 ^ w + c ->
    Room.ants (Room.addAnt_all w ps (Room.new n ty c)) = ps.
Proof.
  intros w c n ty ps Hc Hlen.
  rewrite addAnt_all_ants. simpl. rewrite Nat.sub_0_r.
  assert (Hmod : c mod 2 ^ w = 2 ^ w + c).
  { symmetry. apply (Z.mod_unique c (2 ^ w) (-1)); lia. }
  rewrite Hmod. apply take_ge. lia.
Qed.

Lemma room_negative_capacity_accepts_witness :
  (- 2 ^ 64 < -1 < 0 /\ Z.of_nat 3 <= 2 ^ 64 + -1)
  /\ Room.ants (Room.addAnt_all 64 [Some 0%nat; Some 1%nat; Some 2%nat]
                  (Room.new "Battle" Room.BATTLE (-1)))
     = [Some 0%nat; Some 1%nat; Some 2%nat].
Proof.
  split; [split; [split; reflexivity | vm_compute; discriminate] |].
  apply (room_negative_capacity_accepts 64 (-1) "Battle" Room.BATTLE
           [Some 0%nat; Some 1%nat; Some 2%nat]).
  - split; reflexivity.
  - vm_compute. discriminate.
Defined.

(** ** The species of the meadow *)

(** X17. Whatever non-negative values [rand] returns and in whatever order
    each [emplace_back] evaluates its three calls of [rand], the meadow
    starts with exactly twelve species named [Species0] to [Species11], and
    every bonus of every species lies between 5 and 9. *)
Theorem initializeSpecies_result :
  forall (ord : nat -> Meadow.ArgOrder) (rnd : nat -> Z),
    (forall k, 0 <= rnd k) ->
    (length (Meadow.initializeSpecies ord rnd) = 12%nat
     /\ (speciesName <$> Meadow.initializeSpecies ord rnd)
        = ["Species0"; "Species1"; "Species2"; "Species3"; "Species4";
           "Species5"; "Species6"; "Species7"; "Species8"; "Species9";
           "Species10"; "Species11"])
    /\ Forall (fun s => 5 <= strengthBonus s <= 9
                        /\ 5 <= efficiencyBonus s <= 9
                        /\ 5 <= harvestBonus s <= 9)
         (Meadow.initializeSpecies ord rnd).
Proof.
  intros ord rnd Hrnd.
  assert (Hrem : forall k, 5 <= Z.rem (rnd k) 5 + 5 <= 9).
  { intros k. pose proof (Z.rem_bound_pos (rnd k) 5 (Hrnd k)). lia. }
  split; [split; vm_compute; reflexivity |].
  unfold Meadow.initializeSpecies.
  change (Z.to_nat Meadow.numSpecies) with 12%nat.
  cbn [Meadow.initializeSpecies_from].
  repeat (apply Forall_cons; split;
          [cbn [strengthBonus efficiencyBonus harvestBonus];
           repeat split; apply Hrem |]).
  apply Forall_nil. exact I.
Qed.

Lemma initializeSpecies_result_witness :
  (forall k, 0 <= ex_rand k)
  /\ length (Meadow.initializeSpecies ex_order ex_rand) = 12%nat
  /\ Forall (fun s => 5 <= strengthBonus s <= 9
                      /\ 5 <= efficiencyBonus s <= 9
                      /\ 5 <= harvestBonus s <= 9)
       (Meadow.initializeSpecies ex_order ex_rand).
Proof.
  assert (Hpos : forall k, 0 <= ex_rand k) by (intros k; unfold ex_rand; lia).
  split; [exact Hpos |].
  destruct (initializeSpecies_result ex_order ex_rand Hpos) as [[Hlen _] Hall].
  split; assumption.
Defined.

(** With the arguments evaluated right to left the first call of [rand]
    gives the harvest bonus and the third one the strength bonus; written
    order gives the opposite assignment. *)
Lemma initializeSpecies_first_species :
  head (Meadow.initializeSpecies ex_order ex_rand)
    = Some (mkSpecies "Species0" 6 7 8)
  /\ head (Meadow.initializeSpecies (fun _ => Meadow.SEH) ex_rand)
      = Some (mkSpecies "Species0" 8 7 6).
Proof. split; vm_compute; reflexivity. Qed.

(** ** The driver *)

Section DriverFacts.

Implicit Types (h : Heap) (m : Meadow.t) (out : list string) (tc : Z).

Lemma main_loop_bounded fuel : forall tc h m out,
  Forall (fun f => valid_handles h (AntFarm.ants f)) (Meadow.farms m) ->
  tc <= MAX_TICKS ->
  (Z.to_nat (MAX_TICKS - tc) <= fuel)%nat ->
  exists tc' h' m' out',
    main_loop fuel tc h m out = Some (tc', h', m', out')
    /\ tc <= tc' <= MAX_TICKS
    /\ (Meadow.simulationComplete m' = true \/ tc' = MAX_TICKS)
    /\ Z.of_nat (length out') = Z.of_nat (length out) + (tc' - tc).
Proof.
  induction fuel as [| fuel IH]; intros tc h m out Hv Htc Hfuel.
  - assert (tc = MAX_TICKS) by lia. subst tc.
    exists MAX_TICKS, h, m, out. simpl.
    rewrite Z.ltb_irrefl, andb_false_r.
    split; [reflexivity |]. split; [lia |]. split; [right; reflexivity | lia].
  - cbn [main_loop].
    destruct (Meadow.simulationComplete m) eqn:Hdone; simpl.
    { exists tc, h, m, out. split; [reflexivity |]. split; [lia |].
      split; [left; exact Hdone | lia]. }
    destruct (Z.ltb_spec tc MAX_TICKS) as [Hlt | Hge].
    + destruct (meadow_tick_total_local h m Hv) as (h1 & m1 & -> & _ & _ & Hv1).
      destruct (IH (tc + 1) h1 m1
                  (out ++ ["Tick " +:+ pretty (tc + 1) +:+ " completed."]) Hv1)
        as (tc' & h' & m' & out' & -> & Hb & Hstop & Hlen); [lia | lia |].
      exists tc', h', m', out'. split; [reflexivity |]. split; [lia |].
      split; [exact Hstop |].
      rewrite length_app in Hlen. simpl in Hlen. lia.
    + exists tc, h, m, out. split; [reflexivity |]. split; [lia |].
      split; [right; lia | lia].
Qed.

End DriverFacts.

(** X18. The loop of [main], started on any meadow whose member handles are
    all live, ends after at most [MAX_TICKS] = 1000 ticks; it stops either
    because [simulationComplete] holds or because the bound was reached, and
    it has written exactly one line per tick made. *)
Theorem driver_loop_bounded :
  forall (h : Heap) (m : Meadow.t),
    Forall (fun f => valid_handles h (AntFarm.ants f)) (Meadow.farms m) ->
    exists tickCount h' m' out,
      main_loop (Z.to_nat MAX_TICKS) 0 h m [] = Some (tickCount, h', m', out)
      /\ 0 <= tickCount <= MAX_TICKS
      /\ (Meadow.simulationComplete m' = true \/ tickCount = MAX_TICKS)
      /\ Z.of_nat (length out) = tickCount.
Proof.
  intros h m Hv.
  destruct (main_loop_bounded (Z.to_nat MAX_TICKS) 0 h m [] Hv)
    as (tc' & h' & m' & out' & Hrun & Hb & Hstop & Hlen).
  - unfold MAX_TICKS. lia.
  - unfold MAX_TICKS. lia.
  - exists tc', h', m', out'. split; [exact Hrun |].
    split; [exact Hb |]. split; [exact Hstop |]. simpl in Hlen. lia.
Qed.

Lemma driver_loop_bounded_witness :
  Forall (fun f => valid_handles short_heap (AntFarm.ants f)) (Meadow.farms ex_meadow)
  /\ exists tickCount h' m' out,
       main_loop (Z.to_nat MAX_TICKS) 0 short_heap ex_meadow []
         = Some (tickCount, h', m', out)
       /\ 0 <= tickCount <= MAX_TICKS
       /\ (Meadow.simulationComplete m' = true \/ tickCount = MAX_TICKS)
       /\ Z.of_nat (length out) = tickCount.
Proof.
  split; [exact ex_meadow_valid |].
  apply (driver_loop_bounded short_heap ex_meadow). exact ex_meadow_valid.
Defined.

(** X19. The whole program.  Whatever values [rand] returns and in whatever
    order the arguments of [emplace_back] are evaluated, [main] never
    indexes the species list out of range, makes exactly 51 ticks (both
    colonies hold two ants and 1000 units of food, so both starve at tick
    51), writes one line per tick and the closing line, and returns 0. *)
Theorem main_runs_51_ticks :
  forall (ord : nat -> Meadow.ArgOrder) (rnd : nat -> Z),
    main ord rnd
    = Some (0,
            ((fun k : nat => "Tick " +:+ pretty (Z.of_nat k) +:+ " completed.")
               <$> seq 1 51)
            ++ ["Simulation ended after 51 ticks."]).
Proof. intros ord rnd. vm_compute. reflexivity. Qed.

(** ** Null and dangling member handles *)

Section NullHandleFacts.

Implicit Types (h : Heap) (f : AntFarm.t) (p : ptr) (l : list ptr).

Lemma tick_loop_reaches_bad_handle l1 : forall i h f p l2,
  valid_handles h l1 ->
  rates_nonneg h ->
  total_rate h l1 <= AntFarm.foodSupply f ->
  deref h p = None ->
  AntFarm.tick_loop i (l1 ++ p :: l2) h f = None.
Proof.
  induction l1 as [| q l1 IH]; intros i h f p l2 Hv Hr Hcov Hp.
  - simpl. rewrite Hp. reflexivity.
  - apply Forall_cons in Hv as [[a Hq] Hv].
    change (total_rate h (q :: l1)) with (rate_at h q + total_rate h l1) in Hcov.
    rewrite (rate_at_deref _ _ _ Hq) in Hcov.
    pose proof (total_rate_nonneg h l1 Hr) as Hl.
    pose proof (rates_store_act _ _ _ Hq) as Hrates.
    change ((q :: l1) ++ p :: l2) with (q :: (l1 ++ p :: l2)).
    rewrite (tick_loop_cons_ok _ _ _ _ _ _ Hq) by lia.
    rewrite IH; [reflexivity | | | |].
    + eapply valid_handles_congr; eassumption.
    + eapply rates_nonneg_congr; eassumption.
    + rewrite (total_rate_congr _ _ _ Hrates). simpl AntFarm.foodSupply. lia.
    + eapply deref_rates_None; [symmetry; exact Hrates | exact Hp].
Qed.

End NullHandleFacts.

(** X20. Neither [addAnt] nor [setQueen] rejects a null handle, and the tick
    does not test for one.  If an active colony with a queen has a null (or
    otherwise dead) handle among its members, the members before it are
    live and the supply covers their consumption, then the tick dereferences
    that handle: its behaviour is undefined (the model gives no result). *)
Theorem tick_undefined_at_dead_member :
  forall (h : Heap) (f : AntFarm.t) (l1 l2 : list ptr) (p : ptr),
    AntFarm.isActive f = true ->
    is_null (AntFarm.queen f) = false ->
    AntFarm.ants f = l1 ++ p :: l2 ->
    deref h p = None ->
    valid_handles h l1 ->
    rates_nonneg h ->
    total_rate h l1 <= AntFarm.foodSupply f ->
    AntFarm.tick h f = None.
Proof.
  intros h f l1 l2 p Hact Hq Hants Hp Hv Hr Hcov.
  rewrite (tick_guard_open _ _ Hact Hq), Hants.
  apply tick_loop_reaches_bad_handle; assumption.
Qed.

Lemma tick_undefined_at_dead_member_witness :
  AntFarm.ants (AntFarm.addAnt None ex_farm) = [Some 0%nat] ++ None :: []
  /\ AntFarm.tick ex_heap (AntFarm.addAnt None ex_farm) = None.
Proof.
  split; [reflexivity |].
  apply (tick_undefined_at_dead_member ex_heap (AntFarm.addAnt None ex_farm)
           [Some 0%nat] [] None).
  - reflexivity.
  - reflexivity.
  - reflexivity.
  - reflexivity.
  - exact ex_farm_valid.
  - exact ex_heap_rates.
  - vm_compute. discriminate.
Defined.

(** X21. A handle stored at several positions of [ants] (which [setQueen]
    and [addAnt] allow) makes its ant act and eat once per position: after a
    tick in which every member is fed, each stored ant has had [act] applied
    as many times as its handle occurs among the members, ants that are not
    members not at all, and the supply has gone down by the members'
    consumption counted per position. *)
Theorem fed_tick_acts_once_per_occurrence :
  forall (h : Heap) (f : AntFarm.t),
    AntFarm.isActive f = true ->
    is_null (AntFarm.queen f) = false ->
    valid_handles h (AntFarm.ants f) ->
    rates_nonneg h ->
    total_rate h (AntFarm.ants f) <= AntFarm.foodSupply f ->
    exists h' f' tr,
      AntFarm.tick h f = Some (h', f', tr)
      /\ AntFarm.foodSupply f'
         = AntFarm.foodSupply f - total_rate h (AntFarm.ants f)
      /\ forall p a,
           deref h p = Some a ->
           deref h' p = Some (Ant.act_n (occurrences p (AntFarm.ants f)) a).
Proof.
  intros h f Hact Hq Hv Hr Hcov.
  rewrite (tick_guard_open _ _ Hact Hq).
  rewrite (tick_loop_all_fed _ _ _ _ Hv Hr Hcov).
  eexists _, _, _. split; [reflexivity |]. split; [reflexivity |].
  intros p a Hp. apply act_all_deref, Hp.
Qed.

Lemma fed_tick_acts_once_per_occurrence_witness :
  exists h' f' tr,
    AntFarm.tick ex_heap (AntFarm.setQueen (Some 0%nat) ex_farm)
      = Some (h', f', tr)
    /\ AntFarm.foodSupply f' = 1000 - 20
    /\ (Ant.energy <$> deref h' (Some 0%nat)) = Some 80.
Proof.
  destruct (fed_tick_acts_once_per_occurrence ex_heap
              (AntFarm.setQueen (Some 0%nat) ex_farm))
    as (h' & f' & tr & Hrun & Hfood & Hacts).
  - reflexivity.
  - reflexivity.
  - repeat constructor; eexists; reflexivity.
  - exact ex_heap_rates.
  - vm_compute. discriminate.
  - exists h', f', tr. split; [exact Hrun |]. split; [exact Hfood |].
    rewrite (Hacts (Some 0%nat) _ eq_refl). reflexivity.
Defined.
